(** * remotelib: host-aware paths, the address grammar and error translation

    A shallow embedding of [src/remotelib/_ssh.py] and
    [src/remotelib/_file.py], and the properties of the two that the
    specification states.

    - A Python [str] is a [string]; a character is a code point below 256.
    - The builtins the code calls ([in], [str.index], [str.split],
      [str.count], [str.strip], [int], [str] of an [int], [shlex.quote]) and
      the part of [pathlib.PurePosixPath] it relies on are modelled in the
      modules [Str], [PyInt], [Shlex] and [PurePath], as the interpreter
      versions that run the library (3.10 and later) have them.
    - Code that can raise returns a [result]; the exception is the error
      value.
    - [os.getlogin()], the process layer ([subprocess.check_output], which
      runs a shell locally or [ssh]) and the local file system are section
      variables: every property holds for all of them.

    The definitions come first, in the order of the source; the facts about
    the builtins follow, then the properties of the library. *)

From Stdlib Require Import String Ascii List ZArith Lia Bool Arith.
From Stdlib Require Import DecimalString DecimalZ DecimalPos.
Import ListNotations.

Open Scope list_scope.
Open Scope string_scope.


(** ** Exceptions and results *)

Inductive exc_class : Type :=
| ValueError
| AssertionError
| TypeError
| FileNotFoundError
| PermissionError
| FileExistsError
| UserError (name : string).

(** [Raised cls arg] is an exception this code constructs, [cls(arg)];
    [Builtin cls] is one raised by the interpreter or the standard library,
    whose message is not modelled; the last two are the failures of
    [subprocess.check_output]. *)
Inductive exception : Type :=
| Raised (cls : exc_class) (arg : string)
| Builtin (cls : exc_class)
| CalledProcessError (returncode : Z) (stderr : string)
| TimeoutExpired.

Definition class_of (e : exception) : option exc_class :=
  match e with
  | Raised c _ => Some c
  | Builtin c => Some c
  | CalledProcessError _ _ => None
  | TimeoutExpired => None
  end.

Inductive result (A : Type) : Type :=
| Ok (a : A)
| Raise (e : exception).

Arguments Ok {A} a.
Arguments Raise {A} e.

Definition bind {A B : Type} (r : result A) (k : A -> result B) : result B :=
  match r with
  | Ok a => k a
  | Raise e => Raise e
  end.

Notation "x <- r ;; k" := (bind r (fun x => k))
  (at level 61, r at next level, right associativity).
Notation "' pat <- r ;; k" := (bind r (fun x => match x with pat => k end))
  (at level 61, pat pattern, r at next level, right associativity).

Fixpoint mapM {A B : Type} (f : A -> result B) (l : list A) : result (list B) :=
  match l with
  | [] => Ok []
  | a :: l' => b <- f a ;; bs <- mapM f l' ;; Ok (b :: bs)
  end.

(** ** Python string operations *)

Module Str.

(** [c in s] for a single character. *)
Fixpoint mem (c : ascii) (s : string) : bool :=
  match s with
  | EmptyString => false
  | String x s' => if Ascii.eqb c x then true else mem c s'
  end.

(** [s.startswith(p)] *)
Fixpoint startswith (p s : string) : bool :=
  match p, s with
  | EmptyString, _ => true
  | String a p', String b s' => if Ascii.eqb a b then startswith p' s' else false
  | String _ _, EmptyString => false
  end.

Fixpoint drop (n : nat) (s : string) : string :=
  match n, s with
  | O, _ => s
  | S n', String _ s' => drop n' s'
  | S _, EmptyString => EmptyString
  end.

(** [s.find(sub)]: the index of the first occurrence, if any. *)
Fixpoint find (sub s : string) : option nat :=
  if startswith sub s then Some O
  else match s with
       | EmptyString => None
       | String _ s' => option_map S (find sub s')
       end.

(** [sub in s] *)
Definition contains (sub s : string) : bool :=
  match find sub s with Some _ => true | None => false end.

(** [s.index(sub)] raises [ValueError] when [sub] does not occur. *)
Definition index (s sub : string) : result nat :=
  match find sub s with
  | Some i => Ok i
  | None => Raise (Builtin ValueError)
  end.

(** The text around the first occurrence of [sep]: [s.split(sep, maxsplit=1)]
    is [[a; b]] when [partition sep s = Some (a, b)] and [[s]] when it is
    [None]. *)
Fixpoint partition (sep s : string) : option (string * string) :=
  if startswith sep s then Some (EmptyString, drop (String.length sep) s)
  else match s with
       | EmptyString => None
       | String c s' =>
           match partition sep s' with
           | Some (a, b) => Some (String c a, b)
           | None => None
           end
       end.

Definition split_max1 (sep s : string) : list string :=
  match partition sep s with
  | Some (a, b) => [a; b]
  | None => [s]
  end.

(** [s.split(sep)] for a non-empty [sep]; every cut consumes a character,
    so [length s] rounds are enough. *)
Fixpoint split_fuel (n : nat) (sep s : string) : list string :=
  match n with
  | O => [s]
  | S n' =>
      match partition sep s with
      | Some (a, b) => a :: split_fuel n' sep b
      | None => [s]
      end
  end.

Definition split (sep s : string) : list string :=
  split_fuel (String.length s) sep s.

(** [s.count(sub)] for a non-empty [sub]: occurrences that do not overlap. *)
Fixpoint count_fuel (n : nat) (sub s : string) : nat :=
  match n with
  | O => O
  | S n' =>
      match partition sub s with
      | Some (_, b) => S (count_fuel n' sub b)
      | None => O
      end
  end.

Definition count (sub s : string) : nat :=
  count_fuel (String.length s) sub s.

(** [sep.join(l)] *)
Fixpoint join (sep : string) (l : list string) : string :=
  match l with
  | [] => EmptyString
  | [x] => x
  | x :: l' => x ++ sep ++ join sep l'
  end.

(** [str.isspace] on one character below 256: tab to carriage return, the
    four separators 28..31, the space, NEL (133) and the no-break space
    (160). *)
Definition isspace (c : ascii) : bool :=
  let n := nat_of_ascii c in
  (((9 <=? n) && (n <=? 13)) || ((28 <=? n) && (n <=? 32))
   || (n =? 133) || (n =? 160))%nat.

(** Dropping the leading and the trailing characters that satisfy [f]. *)
Fixpoint lstrip_by (f : ascii -> bool) (s : string) : string :=
  match s with
  | EmptyString => EmptyString
  | String c s' => if f c then lstrip_by f s' else s
  end.

Fixpoint rstrip_by (f : ascii -> bool) (s : string) : string :=
  match s with
  | EmptyString => EmptyString
  | String c s' =>
      match rstrip_by f s' with
      | EmptyString => if f c then EmptyString else String c EmptyString
      | t => String c t
      end
  end.

Definition strip_by (f : ascii -> bool) (s : string) : string :=
  rstrip_by f (lstrip_by f s).

(** [s.strip()] *)
Definition strip (s : string) : string := strip_by isspace s.

(** [s.split()] with no separator: the maximal runs of characters that are
    not white space. *)
Fixpoint split_ws (s : string) : list string :=
  match s with
  | EmptyString => []
  | String c s' =>
      if isspace c then split_ws s'
      else match s' with
           | EmptyString => [String c EmptyString]
           | String c' _ =>
               if isspace c' then String c EmptyString :: split_ws s'
               else match split_ws s' with
                    | w :: ws => String c w :: ws
                    | [] => [String c EmptyString]
                    end
           end
  end.





End Str.

(** ** The builtin [int] on strings, and [str] on integers *)

Module PyInt.

(** The value of a character as a digit in some base up to 36. *)
Definition digit_value (c : ascii) : option Z :=
  let n := Z.of_nat (nat_of_ascii c) in
  if ((48 <=? n) && (n <=? 57))%Z then Some (n - 48)%Z
  else if ((97 <=? n) && (n <=? 122))%Z then Some (n - 87)%Z
  else if ((65 <=? n) && (n <=? 90))%Z then Some (n - 55)%Z
  else None.

(** The white space [int] skips at both ends: the six characters of the C
    locale, and above 127 the characters [str.isspace] accepts, which the
    conversion first turns into spaces.  The separators 28..31 are not
    skipped. *)
Definition isspace (c : ascii) : bool :=
  let n := nat_of_ascii c in
  (((9 <=? n) && (n <=? 13)) || (n =? 32) || (n =? 133) || (n =? 160))%nat.

(** A digit of base 10. *)
Definition is_decimal (c : ascii) : bool :=
  match digit_value c with
  | Some k => (k <? 10)%Z
  | None => false
  end.

(** Digits of [base] with single underscores between them; [prev_us] says
    that the previous character was an underscore. *)
Fixpoint digits (base : Z) (s : string) (acc : Z) (prev_us : bool) : option Z :=
  match s with
  | EmptyString => if prev_us then None else Some acc
  | String c s' =>
      if Ascii.eqb c "_" then
        if prev_us then None else digits base s' acc true
      else
        match digit_value c with
        | Some d =>
            if (d <? base)%Z then digits base s' (base * acc + d)%Z false
            else None
        | None => None
        end
  end.

(** At least one digit, and no leading underscore. *)
Definition body_value (base : Z) (s : string) : option Z :=
  match s with
  | EmptyString => None
  | String c _ => if Ascii.eqb c "_" then None else digits base s 0%Z false
  end.

(** Base 16 accepts a [0x] or [0X] prefix, and one underscore after it. *)
Definition strip_prefix (base : Z) (s : string) : string :=
  if (base =? 16)%Z then
    if Str.startswith "0x" s || Str.startswith "0X" s then
      let r := Str.drop 2 s in
      if Str.startswith "_" r then Str.drop 1 r else r
    else s
  else s.

Definition parse (base : Z) (s : string) : option Z :=
  let t := Str.strip_by isspace s in
  let '(neg, u) :=
    if Str.startswith "+" t then (false, Str.drop 1 t)
    else if Str.startswith "-" t then (true, Str.drop 1 t)
    else (false, t) in
  match body_value base (strip_prefix base u) with
  | Some v => Some (if neg then (- v)%Z else v)
  | None => None
  end.

(** [int(s, base)] for [base] 10 or 16; a string it rejects raises
    [ValueError].  The interpreter's optional cap on the number of digits of
    a decimal conversion is not modelled. *)
Definition int_base (base : Z) (s : string) : result Z :=
  match parse base s with
  | Some z => Ok z
  | None => Raise (Builtin ValueError)
  end.

(** [int(s)] *)
Definition int (s : string) : result Z := int_base 10 s.

(** [str(z)], also what an f-string puts for an integer. *)
Definition str (z : Z) : string := NilZero.string_of_int (Z.to_int z).

(** The characters a string accepted by [int] is made of. *)
Definition int_char (c : ascii) : bool :=
  isspace c || Ascii.eqb c "+" || Ascii.eqb c "-" || Ascii.eqb c "_"
  || match digit_value c with Some _ => true | None => false end.

End PyInt.

(** ** [pathlib.PurePosixPath], the bare path

    [LocalPath] in the source is [pathlib.Path], a [PosixPath] on the
    systems the library runs on.  The drive is always empty there, so a
    path is its root (empty, one slash or two) and the list of its
    segments. *)

Module PurePath.

Record t : Type := mk { root : string; tail : list string }.

Fixpoint lstrip_sep (s : string) : string :=
  match s with
  | String c s' => if Ascii.eqb c "/" then lstrip_sep s' else s
  | EmptyString => s
  end.

(** [splitroot]: exactly two leading slashes are kept as a root of their
    own, any other number collapses to one. *)
Definition splitroot (part : string) : string * string :=
  if Str.startswith "/" part then
    let stripped_part := lstrip_sep part in
    if (String.length part - String.length stripped_part =? 2)%nat
    then ("//", stripped_part)
    else ("/", stripped_part)
  else (EmptyString, part).

Definition keep (x : string) : bool :=
  negb (String.eqb x EmptyString) && negb (String.eqb x ".").

(** [LocalPath(s)]: empty segments and [.] segments are dropped. *)
Definition of_str (s : string) : t :=
  let '(r, rel) := splitroot s in
  mk r (filter keep (Str.split "/" rel)).

(** [str(p)] *)
Definition to_str (p : t) : string :=
  let s := root p ++ Str.join "/" (tail p) in
  if String.eqb s EmptyString then "." else s.

Definition eqb (p q : t) : bool :=
  String.eqb (root p) (root q)
  && if list_eq_dec string_dec (tail p) (tail q) then true else false.

(** [p.parent] *)
Definition parent (p : t) : t :=
  match tail p with
  | [] => p
  | _ :: _ => mk (root p) (removelast (tail p))
  end.

(** [p.is_absolute()] *)
Definition is_absolute (p : t) : bool :=
  negb (String.eqb (root p) EmptyString).

(** [p / q]: a rooted right operand replaces the left one. *)
Definition truediv (p q : t) : t :=
  if is_absolute q then q
  else mk (root p) (tail p ++ tail q)%list.

Fixpoint is_prefix (l m : list string) : bool :=
  match l, m with
  | [], _ => true
  | x :: l', y :: m' => String.eqb x y && is_prefix l' m'
  | _ :: _, [] => false
  end.

(** [p.is_relative_to(q)] *)
Definition is_relative_to (p q : t) : bool :=
  String.eqb (root p) (root q) && is_prefix (tail q) (tail p).

(** [p.relative_to(q)] raises [ValueError] unless [q] is [p] or one of its
    ancestors; the result is a relative path. *)
Definition relative_to (p q : t) : result t :=
  if is_relative_to p q
  then Ok (mk EmptyString (skipn (List.length (tail q)) (tail p)))
  else Raise (Builtin ValueError).

(** The paths [of_str] produces: a root of at most two slashes, and
    segments that are kept and hold no slash. *)
Definition wf_root (r : string) : Prop := r = EmptyString \/ r = "/" \/ r = "//".

Definition seg_ok (x : string) : Prop := keep x = true /\ Str.mem "/" x = false.

Definition wf (p : t) : Prop := wf_root (root p) /\ Forall seg_ok (tail p).

End PurePath.

(** ** [_ssh.py]: hosts, command execution and error translation *)

(** [shlex.quote] *)
Module Shlex.

Definition safe (c : ascii) : bool :=
  let n := nat_of_ascii c in
  (((48 <=? n) && (n <=? 57)) || ((65 <=? n) && (n <=? 90))
   || ((97 <=? n) && (n <=? 122)))%nat
  || Str.mem c "_@%+=:,./-".

Fixpoint all_safe (s : string) : bool :=
  match s with
  | EmptyString => true
  | String c s' => safe c && all_safe s'
  end.

Definition dquote : string := String (ascii_of_nat 34) EmptyString.

Fixpoint escape (s : string) : string :=
  match s with
  | EmptyString => EmptyString
  | String c s' =>
      if Ascii.eqb c "'" then "'" ++ dquote ++ "'" ++ dquote ++ "'" ++ escape s'
      else String c (escape s')
  end.

Definition quote (s : string) : string :=
  match s with
  | EmptyString => "''"
  | _ => if all_safe s then s else "'" ++ escape s ++ "'"
  end.

End Shlex.

Definition _OPTS : string :=
  Str.join " "
    [ "-o StrictHostKeyChecking=no";
      "-o UserKnownHostsFile=/dev/null";
      "-o LogLevel=ERROR";
      "-o PasswordAuthentication=no" ].

Definition _DEFAULT_PORT : Z := 22.

(** An insertion-ordered [dict] with string keys: the items in order. *)
Definition dict (V : Type) : Type := list (string * V).

Fixpoint dict_set {V : Type} (d : dict V) (k : string) (v : V) : dict V :=
  match d with
  | [] => [(k, v)]
  | (k', v') :: d' =>
      if String.eqb k' k then (k', v) :: d' else (k', v') :: dict_set d' k v
  end.

Fixpoint dict_get {V : Type} (d : dict V) (k : string) : option V :=
  match d with
  | [] => None
  | (k', v') :: d' => if String.eqb k' k then Some v' else dict_get d' k
  end.

(** [d | e]: the items of [e] are set in [d], in order. *)
Definition dict_or {V : Type} (d e : dict V) : dict V :=
  fold_left (fun acc kv => dict_set acc (fst kv) (snd kv)) e d.

Definition _DEFAULT_BASH_EXCEPTIONS : dict exc_class :=
  [ ("No such file or directory", FileNotFoundError);
    ("Permission denied", PermissionError);
    ("File exists", FileExistsError) ].

(** [_NewException]: an exception class, a mapping or [None]. *)
Inductive _NewException : Type :=
| ExcNone
| ExcClass (cls : exc_class)
| ExcDict (d : dict exc_class).

(** The loop of [_wrap_exception] over the merged mapping: it has no
    [break], so every later key found in [stderr] replaces the choice. *)
Definition classify (d : dict exc_class) (stderr : string)
    (new_exc : exception) : exception :=
  fold_left
    (fun acc kv =>
       if Str.contains (fst kv) stderr then Raised (snd kv) stderr else acc)
    d new_exc.

(** [_wrap_exception(exc)] around a body whose outcome is [body]: only a
    [CalledProcessError] is caught. *)
Definition _wrap_exception {A : Type} (exc : _NewException) (body : result A)
  : result A :=
  match body with
  | Raise (CalledProcessError returncode stderr) =>
      let process_err := CalledProcessError returncode stderr in
      match exc with
      | ExcClass cls => Raise (Raised cls stderr)
      | ExcDict d =>
          Raise (classify (dict_or _DEFAULT_BASH_EXCEPTIONS d) stderr process_err)
      | ExcNone =>
          Raise (classify (dict_or _DEFAULT_BASH_EXCEPTIONS []) stderr process_err)
      end
  | _ => body
  end.

(** [Local()] and [Remote(hostname, user, port)]; equality of dataclasses
    is equality of the class and of the fields. *)
Inductive Host : Type :=
| Local
| Remote (hostname : string) (user : string) (port : Z).

Definition Host_eqb (h k : Host) : bool :=
  match h, k with
  | Local, Local => true
  | Remote n u p, Remote n' u' p' =>
      String.eqb n n' && String.eqb u u' && (p =? p')%Z
  | _, _ => false
  end.

Definition is_remote (h : Host) : bool :=
  match h with Local => false | Remote _ _ _ => true end.

(** The command line [_ssh_run] hands to the process layer. *)
Definition ssh_command (cmd address : string) (port : Z) : string :=
  "ssh " ++ _OPTS ++ " -p " ++ PyInt.str port ++ " " ++ address ++ " "
  ++ Shlex.quote cmd.

(** [timeout or 5] *)
Definition timeout_or_5 (timeout : option Z) : option Z :=
  match timeout with
  | None => Some 5%Z
  | Some t => if (t =? 0)%Z then Some 5%Z else Some t
  end.

Section Ssh.

(** [os.getlogin()], read when the module is loaded. *)
Variable _DEFAULT_USER : string.

(** [subprocess.check_output(cmd, shell=True, text=True, stderr=PIPE,
    timeout=timeout)]: the captured standard output, or
    [CalledProcessError] / [TimeoutExpired]. *)
Variable check_output : string -> option Z -> result string.

Definition _run (cmd : string) (timeout : option Z) : result string :=
  out <- check_output cmd timeout ;;
  Ok (Str.strip out).

Definition _ssh_run (cmd address : string) (port : Z) (timeout : option Z)
  : result string :=
  _run (ssh_command cmd address port) (timeout_or_5 timeout).

(** [Remote.__str__]: the defaults are left out. *)
Definition Remote_str (hostname user : string) (port : Z) : string :=
  let description := hostname in
  let description :=
    if negb (String.eqb user _DEFAULT_USER) then user ++ "@" ++ description
    else description in
  let description :=
    if negb (port =? _DEFAULT_PORT)%Z then description ++ ":" ++ PyInt.str port
    else description in
  description.

(** [host.prefix] *)
Definition prefix (h : Host) : string :=
  match h with
  | Local => EmptyString
  | Remote n u p => Remote_str n u p ++ ":"
  end.

(** [Remote.from_str]: [[<user>@]<hostname>[:<port>]]. *)
Definition from_str (host : string) : result Host :=
  '(host, port) <-
    (if Str.contains ":" host then
       if (Str.count ":" host =? 1)%nat then
         match Str.split ":" host with
         | [host; port_] => port <- PyInt.int port_ ;; Ok (host, port)
         | _ => Raise (Builtin ValueError)
         end
       else Raise (Builtin AssertionError)
     else Ok (host, _DEFAULT_PORT)) ;;
  '(user, host) <-
    (if Str.contains "@" host then
       if (Str.count "@" host =? 1)%nat then
         match Str.split "@" host with
         | [user; host] => Ok (user, host)
         | _ => Raise (Builtin ValueError)
         end
       else Raise (Builtin AssertionError)
     else Ok (_DEFAULT_USER, host)) ;;
  Ok (Remote host user port).

(** [host.run(cmd, exc, timeout=timeout)] *)
Definition run (h : Host) (cmd : string) (exc : _NewException)
    (timeout : option Z) : result string :=
  match h with
  | Local => _wrap_exception exc (_run cmd timeout)
  | Remote hostname user port =>
      _wrap_exception exc
        (_ssh_run cmd (user ++ "@" ++ hostname) port timeout)
  end.

End Ssh.

(** ** [_file.py]: the address grammar and [Path] *)

Definition LocalPath : Type := PurePath.t.

Record Path : Type := mkPath { _host : Host; _path : LocalPath }.

(** What the constructor of [Path] accepts. *)
Inductive path_arg : Type :=
| ArgStr (s : string)
| ArgLocalPath (p : LocalPath)
| ArgPath (p : Path).

(** [os.stat_result]: the ten indexed fields, and whatever further items the
    sequence it is built from carries. *)
Record stat_result : Type := mk_stat {
  st_mode : Z; st_ino : Z; st_dev : Z; st_nlink : Z; st_uid : Z;
  st_gid : Z; st_size : Z; st_atime : Z; st_mtime : Z; st_ctime : Z;
  st_more : list Z
}.

Section File.

Variable _DEFAULT_USER : string.
Variable check_output : string -> option Z -> result string.

(** The local file system, as [pathlib] reports it. *)
Variable os_exists : LocalPath -> result bool.
Variable os_stat : LocalPath -> bool -> result stat_result.

(** How many items beyond the tenth [os.stat_result] accepts on the
    platform. *)
Variable stat_result_more : nat.

(** The guard of the two remote branches of [split]:
    [mark in path and path.index(":") < path.index(mark[1])]. *)
Definition colon_first (path mark c : string) : result bool :=
  if Str.contains mark path then
    i <- Str.index path ":" ;;
    j <- Str.index path c ;;
    Ok (i <? j)%nat
  else Ok false.

(** [path.split(mark, maxsplit=1)] unpacked into two names. *)
Definition split2 (mark path : string) : result (string * string) :=
  match Str.split_max1 mark path with
  | [address; path] => Ok (address, path)
  | _ => Raise (Builtin ValueError)
  end.

Definition split (path : string) : result (Host * LocalPath) :=
  '(host, path) <-
    (b <- colon_first path ":/" "/" ;;
     if b then
       '(address, path) <- split2 ":/" path ;;
       let path := "/" ++ path in
       host <- from_str _DEFAULT_USER address ;;
       Ok (host, path)
     else
       b <- colon_first path ":~" "~" ;;
       if b then
         '(address, path) <- split2 ":~" path ;;
         let path := "~" ++ path in
         host <- from_str _DEFAULT_USER address ;;
         Ok (host, path)
       else Ok (Local, path)) ;;
  Ok (host, PurePath.of_str path).

(** [Path(path)] *)
Definition Path_init (path : path_arg) : result Path :=
  match path with
  | ArgStr s => '(h, p) <- split s ;; Ok (mkPath h p)
  | ArgLocalPath p => Ok (mkPath Local p)
  | ArgPath p => Ok (mkPath (_host p) (_path p))
  end.

(** [str(self)] *)
Definition Path_str (self : Path) : string :=
  prefix _DEFAULT_USER (_host self) ++ PurePath.to_str (_path self).

(** [self == other] for two [Path]s. *)
Definition Path_eqb (self other : Path) : bool :=
  PurePath.eqb (_path self) (_path other) && Host_eqb (_host self) (_host other).

Definition _add_remote (self : Path) (path : string) : result Path :=
  Path_init (ArgStr (prefix _DEFAULT_USER (_host self) ++ path)).

Definition parent (self : Path) : result Path :=
  _add_remote self (PurePath.to_str (PurePath.parent (_path self))).

Definition is_absolute (self : Path) : bool :=
  PurePath.is_absolute (_path self).

Definition relative_to (self : Path) (other_ : path_arg) : result Path :=
  other <- Path_init other_ ;;
  if negb (Host_eqb (_host self) (_host other)) then
    Raise (Raised ValueError "hosts must match")
  else
    p <- PurePath.relative_to (_path self) (_path other) ;;
    _add_remote self (PurePath.to_str p).

Definition is_relative_to (self : Path) (other_ : path_arg) : result bool :=
  other <- Path_init other_ ;;
  if negb (Host_eqb (_host self) (_host other)) then Ok false
  else Ok (PurePath.is_relative_to (_path self) (_path other)).

(** [self / key] *)
Definition truediv (self : Path) (key : path_arg) : result Path :=
  _ <- (match key with
        | ArgPath k =>
            if negb (Host_eqb (_host self) (_host k)) then
              Raise (Raised ValueError "Hosts must be the same when joining paths")
            else Ok tt
        | _ => Ok tt
        end) ;;
  k <- Path_init key ;;
  _add_remote self (PurePath.to_str (PurePath.truediv (_path self) (_path k))).

Definition exists_cmd (self : Path) : string :=
  "[[ -f " ++ PurePath.to_str (_path self) ++ " ]] || echo no".

Definition exists_ (self : Path) : result bool :=
  if is_remote (_host self) then
    out <- run check_output (_host self) (exists_cmd self) ExcNone None ;;
    Ok (negb (String.eqb out "no"))
  else os_exists (_path self).

(** [os.stat_result(items)] *)
Definition make_stat_result (items : list Z) : result stat_result :=
  match items with
  | mode :: ino :: dev :: nlink :: uid :: gid :: size :: atime :: mtime
      :: ctime :: more =>
      if (List.length more <=? stat_result_more)%nat then
        Ok (mk_stat mode ino dev nlink uid gid size atime mtime ctime more)
      else Raise (Builtin TypeError)
  | _ => Raise (Builtin TypeError)
  end.

Definition stat_cmd (self : Path) (follow_symlinks : bool) : string :=
  let args := if follow_symlinks then "-L" else EmptyString in
  "stat " ++ args ++ " --format='%f %i %d %h %u %g %s %X %Y %W' "
  ++ PurePath.to_str (_path self).

(** The remote branch of [stat] after the command has run: the fields of
    the output, the first in base 16 and the others in base 10. *)
Definition stat_decode (out : string) : result stat_result :=
  match Str.split_ws out with
  | mode_hex :: others =>
      mode <- PyInt.int_base 16 mode_hex ;;
      rest <- mapM PyInt.int others ;;
      make_stat_result (mode :: rest)
  | [] => Raise (Builtin ValueError)
  end.

Definition stat (self : Path) (follow_symlinks : bool) : result stat_result :=
  if is_remote (_host self) then
    out <- run check_output (_host self)
             (stat_cmd self follow_symlinks) ExcNone None ;;
    stat_decode out
  else os_stat (_path self) follow_symlinks.

(** [lstat] *)
Definition lstat (self : Path) : result stat_result := stat self false.

(** More of the local file system: [read_text], [resolve] and [replace] of
    [pathlib]. *)
Variable os_read_text : LocalPath -> result string.
Variable os_resolve : LocalPath -> result LocalPath.
Variable os_replace : LocalPath -> LocalPath -> result unit.

Definition read_text_cmd (self : Path) : string :=
  "cat " ++ PurePath.to_str (_path self).

Definition read_text (self : Path) : result string :=
  if is_remote (_host self) then
    run check_output (_host self) (read_text_cmd self) ExcNone None
  else os_read_text (_path self).

Definition resolve_cmd (self : Path) : string :=
  "realpath " ++ PurePath.to_str (_path self) ++ " || echo "
  ++ PurePath.to_str (_path self).

Definition resolve (self : Path) : result Path :=
  path <-
    (if is_remote (_host self) then
       run check_output (_host self) (resolve_cmd self) ExcNone None
     else p <- os_resolve (_path self) ;; Ok (PurePath.to_str p)) ;;
  _add_remote self path.

(** The mapping [copy_to] and [move_to] hand to [run]. *)
Definition rsync_exc : _NewException :=
  ExcDict [("Read-only file system", PermissionError)].

Definition copy_to_cmd (self destination : Path) (contents_only : bool)
  : string :=
  "rsync -a " ++ Path_str self ++ (if contents_only then "/" else EmptyString)
  ++ " " ++ Path_str destination.

(** [copy_to]: [rsync] runs on the local host, whatever the two hosts are. *)
Definition copy_to (self destination : Path) (contents_only : bool)
  : result unit :=
  _ <- run check_output Local (copy_to_cmd self destination contents_only)
         rsync_exc None ;;
  Ok tt.

Definition move_to_cmd (self destination : Path)
    (contents_only overwrite : bool) : string :=
  let args := "-a --remove-source-files" in
  let args := if negb overwrite then args ++ " --ignore-existing" else args in
  "rsync " ++ args ++ " " ++ Path_str self
  ++ (if contents_only then "/" else EmptyString) ++ " " ++ Path_str destination.

Definition move_to (self destination : Path) (contents_only overwrite : bool)
  : result unit :=
  _ <- run check_output Local
         (move_to_cmd self destination contents_only overwrite)
         rsync_exc None ;;
  Ok tt.

Definition replace (self : Path) (target_ : path_arg) : result unit :=
  target <- Path_init target_ ;;
  if is_remote (_host self) || is_remote (_host target) then
    move_to self target false true
  else os_replace (_path self) (_path target).

Definition rename (self : Path) (target : path_arg) : result unit :=
  replace self target.

(** [pathlib]'s [glob] on the local file system. *)
Variable os_glob : LocalPath -> string -> result (list LocalPath).



End File.

(** ** Notions the statements use *)

(** A colon is the character just before the first [c] of [s]. *)
Definition colon_just_before_first (c : ascii) (s : string) : Prop :=
  exists a b, s = a ++ ":" ++ String c b /\ Str.mem c a = false.

(** Some colon of [s] is at a smaller index than the first [c] of [s]. *)
Definition colon_before_first (c : ascii) (s : string) : Prop :=
  exists i j,
    Str.find ":" s = Some i /\ Str.find (String c EmptyString) s = Some j
    /\ (i < j)%nat.

(** A host that prints and parses back: what [from_str] returns. *)
Definition plain (c : ascii) (s : string) : Prop := Str.mem c s = false.

Definition host_parses (login : string) (h : Host) : Prop :=
  match h with
  | Local => True
  | Remote n u _ =>
      plain ":" n /\ plain "@" n
      /\ (u = login \/ (plain ":" u /\ plain "@" u))
  end.

(** The first colon of [s] is its first character or follows an [@]. *)
Definition colon_leads (s : string) : Prop :=
  Str.startswith ":" s = true
  \/ exists pre post, s = pre ++ "@:" ++ post /\ Str.mem ":" pre = false.

(** A host descriptor [from_str] accepts: the text [hp] before the port
    holds no colon and at most one [@], and the port, when there is one,
    holds no colon and is read by [int]. *)
Definition descriptor_ok (addr : string) : Prop :=
  exists hp,
    (addr = hp
     \/ exists port_ z,
          addr = hp ++ ":" ++ port_ /\ Str.mem ":" port_ = false
          /\ PyInt.int port_ = Ok z)
    /\ Str.mem ":" hp = false /\ (Str.count "@" hp <= 1)%nat.

(** [s] neither starts nor ends with white space. *)
Definition stripped (s : string) : Prop :=
  (forall c r, s = String c r -> Str.isspace c = false)
  /\ (forall r c, s = r ++ String c EmptyString -> Str.isspace c = false).

(** The bare path [q] is [p] or one of its ancestors. *)
Definition bare_prefix (q p : LocalPath) : Prop :=
  PurePath.root p = PurePath.root q
  /\ exists rest, PurePath.tail p = (PurePath.tail q ++ rest)%list.

(** The mapping a caller hands to [run]; [None] and a class carry none. *)
Definition overrides (exc : _NewException) : dict exc_class :=
  match exc with
  | ExcDict d => d
  | _ => []
  end.

(** What the shell on the host prints for [[[ -f p ]] || echo no], by what
    [p] names there once links are followed: the test holds for a regular
    file only, and [echo] ends its line. *)
Inductive file_kind : Type := RegularFile | Directory | OtherFile.

Definition newline : string := String (ascii_of_nat 10) EmptyString.

Definition test_f_or_echo_no (k : option file_kind) : string :=
  match k with
  | Some RegularFile => EmptyString
  | _ => "no" ++ newline
  end.

(** * Facts about the string operations *)

Module StrFacts.
Import Str.

Lemma mem_app c a b : mem c (a ++ b) = mem c a || mem c b.
Proof.
  induction a as [|x a IH]; simpl; [reflexivity|].
  destruct (Ascii.eqb c x); [reflexivity|exact IH].
Qed.

Lemma mem_cons c x s : mem c (String x s) = Ascii.eqb c x || mem c s.
Proof. simpl. destruct (Ascii.eqb c x); reflexivity. Qed.

Lemma startswith_app p s : startswith p (p ++ s) = true.
Proof.
  induction p as [|x p IH]; simpl; [reflexivity|].
  rewrite Ascii.eqb_refl. exact IH.
Qed.

Lemma startswith_split p s :
  startswith p s = true -> s = p ++ drop (String.length p) s.
Proof.
  revert s. induction p as [|x p IH]; intros s H; simpl in *; [reflexivity|].
  destruct s as [|y s]; [discriminate|].
  destruct (Ascii.eqb x y) eqn:E; [|discriminate].
  apply Ascii.eqb_eq in E. subst y. f_equal. apply IH, H.
Qed.

Lemma drop_app p s : drop (String.length p) (p ++ s) = s.
Proof. induction p; simpl; auto. Qed.

Lemma app_assoc (a b c : string) : (a ++ b) ++ c = a ++ b ++ c.
Proof. induction a; simpl; congruence. Qed.

Lemma app_nil_r (a : string) : a ++ "" = a.
Proof. induction a; simpl; congruence. Qed.

Lemma length_app (a b : string) :
  String.length (a ++ b) = (String.length a + String.length b)%nat.
Proof. induction a; simpl; congruence. Qed.

(** *** One-character needles *)

Lemma find_char c x s :
  find (String c "") (String x s) =
  if Ascii.eqb c x then Some O else option_map S (find (String c "") s).
Proof.
  cbn [find startswith]. destruct (Ascii.eqb c x); reflexivity.
Qed.

Lemma contains_char c s : contains (String c "") s = mem c s.
Proof.
  unfold contains. induction s as [|x s IH]; [reflexivity|].
  rewrite find_char. simpl mem. destruct (Ascii.eqb c x); [reflexivity|].
  destruct (find (String c "") s); simpl in *; exact IH.
Qed.

Lemma partition_char c x s :
  partition (String c "") (String x s) =
  if Ascii.eqb c x then Some ("", s)
  else match partition (String c "") s with
       | Some (a, b) => Some (String x a, b)
       | None => None
       end.
Proof.
  cbn [partition startswith String.length drop].
  destruct (Ascii.eqb c x); reflexivity.
Qed.

Lemma partition_char_none c s :
  mem c s = false -> partition (String c "") s = None.
Proof.
  induction s as [|x s IH]; intros H; [reflexivity|].
  rewrite partition_char. simpl in H.
  destruct (Ascii.eqb c x); [discriminate|]. rewrite (IH H). reflexivity.
Qed.

Lemma partition_char_app c a b :
  mem c a = false -> partition (String c "") (a ++ String c b) = Some (a, b).
Proof.
  induction a as [|x a IH]; intros H.
  - simpl append. rewrite partition_char, Ascii.eqb_refl. reflexivity.
  - simpl append. rewrite partition_char. simpl in H.
    destruct (Ascii.eqb c x); [discriminate|]. rewrite (IH H). reflexivity.
Qed.

Lemma partition_char_inv c s a b :
  partition (String c "") s = Some (a, b) ->
  s = a ++ String c b /\ mem c a = false.
Proof.
  revert a. induction s as [|x s IH]; intros a H; [discriminate|].
  rewrite partition_char in H. destruct (Ascii.eqb c x) eqn:E.
  - apply Ascii.eqb_eq in E. inversion H; subst. split; reflexivity.
  - destruct (partition (String c "") s) as [[a' b']|]; [|discriminate].
    inversion H; subst. destruct (IH a' eq_refl) as [-> Hm].
    split; [reflexivity|]. simpl. rewrite E. exact Hm.
Qed.

Lemma partition_char_some c s :
  mem c s = true -> exists a b, partition (String c "") s = Some (a, b).
Proof.
  intros H. destruct (partition (String c "") s) as [[a b]|] eqn:E; eauto.
  exfalso. revert H E. induction s as [|x s IH]; simpl mem; [discriminate|].
  rewrite partition_char. destruct (Ascii.eqb c x); [discriminate|].
  intros H. destruct (partition (String c "") s) as [[? ?]|]; [discriminate|].
  intros _. auto.
Qed.

(** *** Needles of any length *)

Lemma partition_sound sep s a b :
  partition sep s = Some (a, b) -> s = a ++ sep ++ b.
Proof.
  revert a. induction s as [|x s IH]; intros a; cbn [partition].
  - destruct (startswith sep "") eqn:E; [|discriminate].
    intros H; inversion H; subst. apply startswith_split in E. exact E.
  - destruct (startswith sep (String x s)) eqn:E.
    + intros H; inversion H; subst. apply startswith_split in E. exact E.
    + destruct (partition sep s) as [[a' b']|]; [|discriminate].
      intros H; inversion H; subst. simpl. f_equal. apply IH. reflexivity.
Qed.

Lemma find_app sub a b : find sub (a ++ sub ++ b) <> None.
Proof.
  induction a as [|x a IH].
  - simpl append. destruct (sub ++ b) eqn:E; cbn [find];
      (rewrite <- E, startswith_app; discriminate).
  - simpl append. cbn [find].
    destruct (startswith sub (String x (a ++ sub ++ b))); [discriminate|].
    destruct (find sub (a ++ sub ++ b)); [discriminate|congruence].
Qed.

Lemma contains_app sub a b : contains sub (a ++ sub ++ b) = true.
Proof.
  unfold contains. pose proof (find_app sub a b).
  destruct (find sub (a ++ sub ++ b)); congruence.
Qed.

Lemma contains_partition sep s :
  contains sep s = true <-> exists a b, partition sep s = Some (a, b).
Proof.
  unfold contains. induction s as [|x s IH]; cbn [find partition].
  - destruct (startswith sep ""); split; eauto; try discriminate.
    intros (a & b & H); discriminate.
  - destruct (startswith sep (String x s)); [split; eauto|].
    destruct (find sep s), (partition sep s) as [[a b]|]; simpl in *;
      split; eauto; try discriminate.
    + intros _. destruct IH as [IH _]. destruct (IH eq_refl) as (? & ? & ?).
      discriminate.
    + intros _. destruct IH as [_ IH]. exfalso.
      assert (false = true) by eauto. discriminate.
    + intros (? & ? & ?). discriminate.
Qed.

(** A two-character needle whose second character does not occur before
    it is found where it stands. *)
Lemma partition_pair c1 c2 a b :
  c1 <> c2 -> mem c2 a = false ->
  partition (String c1 (String c2 "")) (a ++ String c1 (String c2 b))
  = Some (a, b).
Proof.
  intros Hne. induction a as [|x a IH]; intros H.
  - simpl append. cbn [partition startswith]. rewrite !Ascii.eqb_refl.
    reflexivity.
  - simpl in H. destruct (Ascii.eqb c2 x) eqn:E2; [discriminate|].
    simpl append. cbn [partition].
    assert (Hs : startswith (String c1 (String c2 ""))
                   (String x (a ++ String c1 (String c2 b))) = false).
    { cbn [startswith]. destruct (Ascii.eqb c1 x); [|reflexivity].
      destruct a as [|y a]; simpl append; cbn [startswith].
      - destruct (Ascii.eqb c2 c1) eqn:E; [|reflexivity].
        apply Ascii.eqb_eq in E. congruence.
      - simpl in H. destruct (Ascii.eqb c2 y); [discriminate|reflexivity]. }
    rewrite Hs, (IH H). reflexivity.
Qed.

(** *** Which of two characters comes first *)

Lemma find_char_mem c s : mem c s = true -> exists j, find (String c "") s = Some j.
Proof.
  rewrite <- contains_char. unfold contains.
  destruct (find (String c "") s); [eauto|discriminate].
Qed.

Lemma find_lt_split c1 c2 s i j :
  find (String c1 "") s = Some i -> find (String c2 "") s = Some j ->
  (i < j)%nat ->
  exists a b, s = a ++ String c1 b /\ mem c1 a = false /\ mem c2 a = false.
Proof.
  revert i j. induction s as [|x s IH]; intros i j Hi Hj Hlt; [discriminate|].
  rewrite find_char in Hi, Hj.
  destruct (Ascii.eqb c1 x) eqn:E1.
  - apply Ascii.eqb_eq in E1. subst x. exists "", s. auto.
  - destruct (Ascii.eqb c2 x) eqn:E2.
    + inversion Hj; subst. lia.
    + destruct (find (String c1 "") s) as [i'|]; [|discriminate].
      destruct (find (String c2 "") s) as [j'|]; [|discriminate].
      simpl in Hi, Hj. inversion Hi; inversion Hj; subst.
      destruct (IH i' j' eq_refl eq_refl) as (a & b & -> & Ha1 & Ha2); [lia|].
      exists (String x a), b. simpl. rewrite E1, E2. auto.
Qed.

Lemma find_lt_app c1 c2 a b :
  c1 <> c2 -> mem c2 a = false -> mem c2 b = true ->
  exists i j,
    find (String c1 "") (a ++ String c1 b) = Some i
    /\ find (String c2 "") (a ++ String c1 b) = Some j /\ (i < j)%nat.
Proof.
  intros Hne. induction a as [|x a IH]; intros Ha Hb; simpl append.
  - destruct (find_char_mem _ _ Hb) as [j Hj].
    exists O, (S j). rewrite !find_char, Ascii.eqb_refl, Hj.
    destruct (Ascii.eqb c2 c1) eqn:E.
    + apply Ascii.eqb_eq in E. congruence.
    + repeat split; auto. lia.
  - simpl in Ha. destruct (Ascii.eqb c2 x) eqn:E2; [discriminate|].
    destruct (IH Ha Hb) as (i & j & Hi & Hj & Hlt).
    rewrite !find_char, E2, Hi, Hj.
    destruct (Ascii.eqb c1 x); [exists O, (S j)|exists (S i), (S j)];
      repeat split; auto; lia.
Qed.

(** Two ways of cutting a string at a [c], the first at its first [c]. *)
Lemma cut_first c a b a2 b2 :
  mem c a = false -> a ++ String c b = a2 ++ String c b2 ->
  (a2 = a /\ b2 = b) \/ (exists x, a2 = a ++ String c x /\ b = x ++ String c b2).
Proof.
  revert a2. induction a as [|x a IH]; intros a2 Ha H.
  - destruct a2 as [|y a2]; simpl in H.
    + inversion H. auto.
    + inversion H; subst. right. exists a2. auto.
  - simpl in Ha. destruct (Ascii.eqb c x) eqn:E; [discriminate|].
    destruct a2 as [|y a2]; simpl in H.
    + inversion H; subst. rewrite Ascii.eqb_refl in E. discriminate.
    + inversion H; subst.
      destruct (IH a2 Ha H2) as [[-> ->]|(z & -> & ->)]; [auto|].
      right. exists z. auto.
Qed.

(** *** [count] and [split] on one character *)

Lemma count_fuel_zero c n b :
  (String.length b <= n)%nat -> count_fuel n (String c "") b = O ->
  mem c b = false.
Proof.
  destruct n as [|n]; intros Hl H.
  - destruct b; [reflexivity|simpl in Hl; lia].
  - simpl in H. destruct (mem c b) eqn:E; [|reflexivity].
    destruct (partition_char_some _ _ E) as (a' & b' & Hp).
    rewrite Hp in H. discriminate.
Qed.

Lemma split_fuel_none n sep s :
  partition sep s = None -> split_fuel n sep s = [s].
Proof. intros H. destruct n; simpl; [|rewrite H]; reflexivity. Qed.

Lemma count_fuel_none n sep s :
  partition sep s = None -> count_fuel n sep s = O.
Proof. intros H. destruct n; simpl; [|rewrite H]; reflexivity. Qed.

Lemma count_one c s :
  count (String c "") s = 1%nat ->
  exists a b, s = a ++ String c b /\ mem c a = false /\ mem c b = false
              /\ split (String c "") s = [a; b].
Proof.
  unfold count, split. destruct s as [|x s]; [discriminate|].
  cbn [String.length count_fuel split_fuel].
  destruct (partition (String c "") (String x s)) as [[a b]|] eqn:Hp;
    [|discriminate].
  intros H. injection H as H.
  destruct (partition_char_inv _ _ _ _ Hp) as [Hs Ha].
  assert (Hl : (String.length b <= String.length s)%nat).
  { apply (f_equal String.length) in Hs. rewrite length_app in Hs.
    simpl in Hs. lia. }
  pose proof (count_fuel_zero _ _ _ Hl H) as Hb.
  exists a, b. repeat split; auto.
  rewrite (split_fuel_none _ _ _ (partition_char_none _ _ Hb)). reflexivity.
Qed.

Lemma count_one_app c a b :
  mem c a = false -> mem c b = false ->
  count (String c "") (a ++ String c b) = 1%nat
  /\ split (String c "") (a ++ String c b) = [a; b].
Proof.
  intros Ha Hb. unfold count, split. rewrite length_app. simpl String.length.
  rewrite Nat.add_succ_r. cbn [count_fuel split_fuel].
  rewrite (partition_char_app _ _ _ Ha).
  rewrite (count_fuel_none _ _ _ (partition_char_none _ _ Hb)).
  rewrite (split_fuel_none _ _ _ (partition_char_none _ _ Hb)). auto.
Qed.

Lemma split_fuel_plain c n s :
  (String.length s <= n)%nat ->
  Forall (fun x => mem c x = false) (split_fuel n (String c "") s).
Proof.
  revert s. induction n as [|n IH]; intros s Hl; simpl.
  - destruct s; [|simpl in Hl; lia]. repeat constructor.
  - destruct (partition (String c "") s) as [[a b]|] eqn:Hp.
    + destruct (partition_char_inv _ _ _ _ Hp) as [-> Ha]. constructor; [exact Ha|].
      apply IH. rewrite length_app in Hl. simpl in Hl. lia.
    + constructor; [|constructor]. destruct (mem c s) eqn:E; [|reflexivity].
      destruct (partition_char_some _ _ E) as (? & ? & ?). congruence.
Qed.

Lemma split_plain c s : Forall (fun x => mem c x = false) (split (String c "") s).
Proof. apply split_fuel_plain. lia. Qed.

Lemma join_cons2 sep x y l : join sep (x :: y :: l) = x ++ sep ++ join sep (y :: l).
Proof. reflexivity. Qed.

Lemma split_fuel_join c l n :
  l <> [] -> Forall (fun x => mem c x = false) l ->
  (String.length (join (String c "") l) <= n)%nat ->
  split_fuel n (String c "") (join (String c "") l) = l.
Proof.
  revert n. induction l as [|x l IH]; intros n Hne Hall Hl; [congruence|].
  inversion Hall as [|? ? Hx Hall']; subst. destruct l as [|y l].
  - simpl join. apply split_fuel_none, partition_char_none, Hx.
  - rewrite join_cons2 in *. rewrite length_app in Hl.
    change (String c "" ++ join (String c "") (y :: l))
      with (String c (join (String c "") (y :: l))) in *.
    cbn [String.length] in Hl.
    destruct n as [|n]; [lia|]. cbn [split_fuel].
    rewrite (partition_char_app _ _ _ Hx). f_equal.
    apply IH; [discriminate|assumption|lia].
Qed.

Lemma split_join c l :
  l <> [] -> Forall (fun x => mem c x = false) l ->
  split (String c "") (join (String c "") l) = l.
Proof. intros. apply split_fuel_join; auto. Qed.

(** *** Stripping white space keeps every other character *)

Lemma lstrip_mem f c s :
  mem c s = true -> f c = true \/ mem c (lstrip_by f s) = true.
Proof.
  induction s as [|x s IH]; intros H; [discriminate|].
  simpl lstrip_by. destruct (f x) eqn:Ex; [|auto].
  simpl in H. destruct (Ascii.eqb c x) eqn:E; [|auto].
  apply Ascii.eqb_eq in E. subst. auto.
Qed.

Lemma rstrip_mem f c s :
  mem c s = true -> f c = true \/ mem c (rstrip_by f s) = true.
Proof.
  induction s as [|x s IH]; intros H; [discriminate|].
  simpl in H. simpl rstrip_by. destruct (Ascii.eqb c x) eqn:E.
  - apply Ascii.eqb_eq in E. subst x.
    destruct (rstrip_by f s); [destruct (f c); auto|]; right; simpl;
      rewrite Ascii.eqb_refl; reflexivity.
  - destruct (IH H) as [Hs|Hm]; [auto|]. right.
    destruct (rstrip_by f s) as [|y t]; [discriminate|].
    rewrite mem_cons, E. exact Hm.
Qed.

Lemma strip_mem f c s :
  mem c s = true -> f c = true \/ mem c (strip_by f s) = true.
Proof.
  intros H. unfold strip_by. destruct (lstrip_mem f _ _ H) as [|H']; [auto|].
  apply rstrip_mem, H'.
Qed.

End StrFacts.

(** * Facts about [int] and [str] *)

Module PyIntFacts.
Import Str StrFacts PyInt.

Lemma digits_chars base s acc p v c :
  digits base s acc p = Some v -> mem c s = true -> int_char c = true.
Proof.
  revert acc p. induction s as [|x s IH]; intros acc p H Hm; [discriminate|].
  rewrite mem_cons in Hm. cbn [digits] in H.
  destruct (Ascii.eqb c x) eqn:E.
  - apply Ascii.eqb_eq in E. subst x. unfold int_char.
    destruct (Ascii.eqb c "_"); [rewrite !orb_true_r; reflexivity|].
    destruct (digit_value c); [rewrite !orb_true_r; reflexivity|discriminate].
  - simpl in Hm. destruct (Ascii.eqb x "_").
    + destruct p; [discriminate|]. eapply IH; eauto.
    + destruct (digit_value x); [|discriminate].
      destruct (z <? base)%Z; [|discriminate]. eapply IH; eauto.
Qed.

Lemma drop1_mem c s :
  mem c s = true -> (exists r, s = String c r) \/ mem c (drop 1 s) = true.
Proof.
  destruct s as [|x s]; [discriminate|]. rewrite mem_cons. simpl drop.
  destruct (Ascii.eqb c x) eqn:E; [|auto].
  apply Ascii.eqb_eq in E. subst. eauto.
Qed.

Lemma startswith_char c s :
  startswith (String c "") s = true -> exists r, s = String c r.
Proof.
  intros H. apply startswith_split in H. simpl in H. eauto.
Qed.

(** A string [int] accepts holds nothing but white space, a sign, digits
    and underscores. *)
Lemma int_chars s z c :
  int s = Ok z -> mem c s = true -> int_char c = true.
Proof.
  unfold int, int_base, parse. intros H Hm.
  destruct (strip_mem isspace _ _ Hm) as [Hs|Ht].
  { unfold int_char. rewrite Hs. reflexivity. }
  set (t := Str.strip_by isspace s) in *.
  assert (Hbody : forall u v, body_value 10 u = Some v ->
                              mem c u = true -> int_char c = true).
  { intros u v Hu Hc. unfold body_value in Hu. destruct u; [discriminate|].
    destruct (Ascii.eqb a "_"); [discriminate|].
    eapply digits_chars; eauto. }
  change (strip_prefix 10) with (fun u : string => u) in H. cbv beta in H.
  destruct (startswith "+" t) eqn:Ep.
  - destruct (body_value 10 (drop 1 t)) eqn:Eb; [|discriminate].
    destruct (drop1_mem _ _ Ht) as [[r ->]|Hd]; [|eauto].
    destruct (startswith_char _ _ Ep) as [r' Hr]. inversion Hr; subst.
    reflexivity.
  - destruct (startswith "-" t) eqn:En.
    + destruct (body_value 10 (drop 1 t)) eqn:Eb; [|discriminate].
      destruct (drop1_mem _ _ Ht) as [[r ->]|Hd]; [|eauto].
      destruct (startswith_char _ _ En) as [r' Hr]. inversion Hr; subst.
      reflexivity.
    + destruct (body_value 10 t) eqn:Eb; [|discriminate]. eauto.
Qed.

Lemma int_plain s z c :
  int s = Ok z -> int_char c = false -> mem c s = false.
Proof.
  intros H Hc. destruct (mem c s) eqn:E; [|reflexivity].
  rewrite (int_chars _ _ _ H E) in Hc. discriminate.
Qed.

(** *** [int (str z) = z] *)

Lemma lstrip_id f s :
  (forall c, mem c s = true -> f c = false) -> lstrip_by f s = s.
Proof.
  destruct s as [|x s]; intros H; [reflexivity|]. simpl.
  rewrite (H x); [reflexivity|]. simpl. rewrite Ascii.eqb_refl. reflexivity.
Qed.

Lemma rstrip_id f s :
  (forall c, mem c s = true -> f c = false) -> rstrip_by f s = s.
Proof.
  induction s as [|x s IH]; intros H; [reflexivity|]. simpl.
  rewrite IH.
  - destruct s; [|reflexivity]. rewrite (H x); [reflexivity|].
    simpl. rewrite Ascii.eqb_refl. reflexivity.
  - intros c Hc. apply H. rewrite mem_cons, Hc. apply orb_true_r.
Qed.

Lemma strip_id f s :
  (forall c, mem c s = true -> f c = false) -> strip_by f s = s.
Proof.
  intros H. unfold strip_by. rewrite (lstrip_id f _ H). apply rstrip_id, H.
Qed.

Lemma uint_decimal d c :
  mem c (NilEmpty.string_of_uint d) = true -> is_decimal c = true.
Proof.
  induction d; simpl; try discriminate;
    (destruct (Ascii.eqb c _) eqn:E;
     [apply Ascii.eqb_eq in E; subst; intros _; reflexivity|exact IHd]).
Qed.

Lemma decimal_facts c :
  is_decimal c = true ->
  isspace c = false /\ Ascii.eqb c "_" = false /\ Ascii.eqb "+" c = false
  /\ Ascii.eqb "-" c = false /\ Ascii.eqb c "-" = false.
Proof.
  destruct c as [[] [] [] [] [] [] [] []]; vm_compute; intros H;
    try discriminate H; repeat split.
Qed.

Lemma digits_acc d acc :
  digits 10 (NilEmpty.string_of_uint d) (Z.pos acc) false
  = Some (Z.pos (Pos.of_uint_acc d acc)).
Proof.
  revert acc. induction d; intros acc; cbn [NilEmpty.string_of_uint];
    [reflexivity| | | | | | | | | | ];
    cbn [digits]; change (Ascii.eqb _ "_") with false; cbv iota;
    match goal with
    | |- context [digit_value ?c] =>
        let v := eval vm_compute in (digit_value c) in
        change (digit_value c) with v
    end; cbv iota; change (_ <? 10)%Z with true; cbv iota;
    cbn [Pos.of_uint_acc]; rewrite <- IHd; f_equal; lia.
Qed.

Lemma digits_uint d :
  digits 10 (NilEmpty.string_of_uint d) 0 false
  = Some (Z.of_N (Pos.of_uint d)).
Proof.
  induction d; cbn [NilEmpty.string_of_uint]; [reflexivity| | | | | | | | | | ];
    cbn [digits]; change (Ascii.eqb _ "_") with false; cbv iota;
    match goal with
    | |- context [digit_value ?c] =>
        let v := eval vm_compute in (digit_value c) in
        change (digit_value c) with v
    end; cbv iota; change (_ <? 10)%Z with true; cbv iota;
    cbn [Pos.of_uint]; [exact IHd | apply digits_acc ..].
Qed.

Lemma parse_uint d :
  d <> Decimal.Nil ->
  parse 10 (NilEmpty.string_of_uint d) = Some (Z.of_N (Pos.of_uint d)).
Proof.
  intros Hd. unfold parse.
  assert (Hdec := uint_decimal d).
  rewrite strip_id by (intros c Hc; apply decimal_facts, Hdec, Hc).
  remember (NilEmpty.string_of_uint d) as s eqn:Es.
  destruct s as [|x s]; [destruct d; simpl in Es; congruence|].
  assert (Hx : is_decimal x = true).
  { apply Hdec. simpl. rewrite Ascii.eqb_refl. reflexivity. }
  destruct (decimal_facts _ Hx) as (_ & Hu & Hp & Hn & _).
  cbn [startswith]. rewrite Hp, Hn.
  change (strip_prefix 10 (String x s)) with (String x s).
  cbn [body_value]. rewrite Hu, Es, digits_uint. reflexivity.
Qed.

Lemma parse_neg d :
  d <> Decimal.Nil ->
  parse 10 (String "-" (NilEmpty.string_of_uint d))
  = Some (- Z.of_N (Pos.of_uint d))%Z.
Proof.
  intros Hd. unfold parse.
  assert (Hdec := uint_decimal d).
  rewrite strip_id.
  2:{ intros c. rewrite mem_cons. destruct (Ascii.eqb c "-") eqn:E.
      - apply Ascii.eqb_eq in E. subst. reflexivity.
      - intros Hc. apply decimal_facts, Hdec, Hc. }
  cbn [startswith]. change (Ascii.eqb "+" "-") with false.
  change (Ascii.eqb "-" "-") with true. cbv iota. cbn [drop].
  remember (NilEmpty.string_of_uint d) as s eqn:Es.
  destruct s as [|x s]; [destruct d; simpl in Es; congruence|].
  assert (Hx : is_decimal x = true).
  { apply Hdec. simpl. rewrite Ascii.eqb_refl. reflexivity. }
  destruct (decimal_facts _ Hx) as (_ & Hu & _).
  change (strip_prefix 10 (String x s)) with (String x s).
  cbn [body_value]. rewrite Hu, Es, digits_uint. reflexivity.
Qed.

Lemma int_str z : int (str z) = Ok z.
Proof.
  unfold int, int_base, str. destruct z as [|p|p]; cbn [Z.to_int].
  - reflexivity.
  - cbn [NilZero.string_of_int]. unfold NilZero.string_of_uint.
    pose proof (DecimalPos.Unsigned.to_uint_nonnil p) as Hn.
    destruct (Pos.to_uint p) eqn:E; [congruence| ..];
      rewrite <- E in *; rewrite (parse_uint _ Hn);
      rewrite DecimalPos.Unsigned.of_to; reflexivity.
  - cbn [NilZero.string_of_int]. unfold NilZero.string_of_uint.
    pose proof (DecimalPos.Unsigned.to_uint_nonnil p) as Hn.
    destruct (Pos.to_uint p) eqn:E; [congruence| ..];
      rewrite <- E in *; rewrite (parse_neg _ Hn);
      rewrite DecimalPos.Unsigned.of_to; reflexivity.
Qed.

(** What [str z] is made of is what [int] accepts. *)
Lemma str_plain z c : int_char c = false -> mem c (str z) = false.
Proof. apply int_plain with (z := z), int_str. Qed.

End PyIntFacts.

(** * Facts about bare paths *)

Module PurePathFacts.
Import Str StrFacts PurePath.

Lemma of_str_wf s : wf (of_str s).
Proof.
  unfold of_str, splitroot, wf.
  destruct (startswith "/" s);
    [destruct (_ =? 2)%nat|]; cbn [root tail]; (split; [unfold wf_root; auto|]);
    apply Forall_forall; intros x Hx; apply filter_In in Hx;
    destruct Hx as [Hin Hk]; (split; [exact Hk|]);
    match goal with
    | H : In x (split "/" ?r) |- _ =>
        exact (proj1 (Forall_forall _ _) (split_plain "/" r) x H)
    end.
Qed.

Lemma filter_keep_id l : Forall seg_ok l -> filter keep l = l.
Proof.
  induction 1 as [|x l [Hk _] _ IH]; simpl; [reflexivity|].
  rewrite Hk, IH. reflexivity.
Qed.

Lemma seg_head x :
  seg_ok x -> exists c r, x = String c r /\ Ascii.eqb c "/" = false.
Proof.
  intros [Hk Hp]. destruct x as [|c r]; [discriminate|].
  exists c, r. split; [reflexivity|]. rewrite mem_cons in Hp.
  rewrite Ascii.eqb_sym. destruct (Ascii.eqb "/" c); [discriminate|reflexivity].
Qed.

Lemma join_head x l :
  seg_ok x ->
  exists c r, join "/" (x :: l) = String c r /\ Ascii.eqb c "/" = false.
Proof.
  intros Hx. destruct (seg_head _ Hx) as (c & r & -> & Hc).
  destruct l as [|y l]; [exists c, r; split; [reflexivity|exact Hc]|].
  exists c, (r ++ "/" ++ join "/" (y :: l)). split; [reflexivity|exact Hc].
Qed.

Lemma split_filter_join l :
  Forall seg_ok l -> filter keep (split "/" (join "/" l)) = l.
Proof.
  intros H. destruct l as [|x l]; [reflexivity|].
  rewrite split_join; [apply filter_keep_id, H|discriminate|].
  eapply Forall_impl; [|exact H]. intros a [_ Ha]. exact Ha.
Qed.

Lemma lstrip_sep_id l : Forall seg_ok l -> lstrip_sep (join "/" l) = join "/" l.
Proof.
  intros H. destruct l as [|x l]; [reflexivity|].
  inversion H as [|? ? Hx _]; subst.
  destruct (join_head _ l Hx) as (c & r & -> & Hc). simpl. rewrite Hc.
  reflexivity.
Qed.

Lemma sub_succ_1 n : (S n - n = 1)%nat.
Proof. lia. Qed.

Lemma sub_succ_2 n : (S (S n) - n = 2)%nat.
Proof. lia. Qed.

(** Printing a path and reading it again gives the path. *)
Lemma of_to_str p : wf p -> of_str (to_str p) = p.
Proof.
  destruct p as [r l]. intros [Hr Hl]. cbn [root tail] in *.
  change (Forall seg_ok l) in Hl.
  unfold to_str. cbn [root tail].
  destruct Hr as [->|[->| ->]].
  - destruct l as [|x l]; [reflexivity|].
    inversion Hl as [|? ? Hx _]; subst.
    destruct (join_head _ l Hx) as (c & t & Hj & Hc).
    change ("" ++ join "/" (x :: l)) with (join "/" (x :: l)).
    rewrite Hj. cbn [String.eqb]. rewrite <- Hj.
    unfold of_str, splitroot. rewrite Hj. cbn [startswith].
    rewrite Ascii.eqb_sym, Hc, <- Hj, split_filter_join by exact Hl.
    reflexivity.
  - change ("/" ++ join "/" l) with (String "/" (join "/" l)).
    cbn [String.eqb].
    unfold of_str, splitroot. cbn [startswith]. rewrite Ascii.eqb_refl.
    cbn [lstrip_sep]. rewrite Ascii.eqb_refl, (lstrip_sep_id _ Hl).
    cbn [String.length]. rewrite sub_succ_1. cbn [Nat.eqb].
    rewrite split_filter_join by exact Hl. reflexivity.
  - change ("//" ++ join "/" l) with (String "/" (String "/" (join "/" l))).
    cbn [String.eqb].
    unfold of_str, splitroot. cbn [startswith]. rewrite Ascii.eqb_refl.
    cbn [lstrip_sep]. rewrite !Ascii.eqb_refl, (lstrip_sep_id _ Hl).
    cbn [String.length]. rewrite sub_succ_2. cbn [Nat.eqb].
    rewrite split_filter_join by exact Hl. reflexivity.
Qed.

Lemma of_to_of s : of_str (to_str (of_str s)) = of_str s.
Proof. apply of_to_str, of_str_wf. Qed.

(** A path read from a string that starts with a slash prints with a
    leading slash. *)
Lemma to_str_rooted s :
  exists r, to_str (of_str (String "/" s)) = String "/" r.
Proof.
  unfold of_str, splitroot. cbn [startswith]. rewrite Ascii.eqb_refl.
  destruct (_ =? 2)%nat; unfold to_str; cbn [root tail]; simpl append;
    cbn [String.eqb]; eauto.
Qed.

Lemma split_head c x s :
  Ascii.eqb c x = false ->
  exists a l, split (String c "") (String x s) = String x a :: l.
Proof.
  intros H. unfold split. cbn [String.length split_fuel].
  rewrite partition_char, H.
  destruct (partition (String c "") s) as [[a b]|]; eauto.
Qed.

(** A path read from a string that starts with a tilde prints with a
    leading tilde. *)
Lemma to_str_home s :
  exists r, to_str (of_str (String "~" s)) = String "~" r.
Proof.
  unfold of_str, splitroot. cbn [startswith].
  change (Ascii.eqb "/" "~") with false. cbv iota.
  destruct (@split_head "/" "~" s eq_refl) as (a & l & ->).
  cbn [filter]. change (keep (String "~" a)) with (negb (String.eqb (String "~" a) ".")).
  cbn [String.eqb]. change (Ascii.eqb "~" ".") with false. cbn [negb].
  unfold to_str. cbn [root tail]. simpl append.
  destruct (filter keep l) as [|y l']; [exists a; reflexivity|].
  exists (a ++ "/" ++ join "/" (y :: l')). reflexivity.
Qed.

Lemma eqb_eq p q : eqb p q = true <-> p = q.
Proof.
  destruct p as [r l], q as [r' l']. unfold eqb. cbn [root tail].
  destruct (list_eq_dec string_dec l l') as [->|Hn].
  - rewrite andb_true_r, String.eqb_eq. split; [intros ->; reflexivity|].
    intros H; inversion H; reflexivity.
  - rewrite andb_false_r. split; [discriminate|]. intros H; inversion H.
    contradiction.
Qed.

End PurePathFacts.

(** * Facts about host descriptors *)

Module SshFacts.
Import Str StrFacts.

Lemma from_str_remote login addr h :
  from_str login addr = Ok h -> is_remote h = true.
Proof.
  unfold from_str, bind. intros H.
  repeat match type of H with
         | match ?x with _ => _ end = _ => destruct x; try discriminate
         end.
  all: inversion H; reflexivity.
Qed.

(** The shape of a descriptor [from_str] accepts: [hp] is the text before
    the port. *)
Lemma from_str_inv login addr n u p :
  from_str login addr = Ok (Remote n u p) ->
  exists hp,
    ((mem ":" addr = false /\ hp = addr /\ p = _DEFAULT_PORT)
     \/ (exists port_, addr = hp ++ ":" ++ port_ /\ mem ":" hp = false
                       /\ mem ":" port_ = false /\ PyInt.int port_ = Ok p))
    /\ ((mem "@" hp = false /\ n = hp /\ u = login)
        \/ (hp = u ++ "@" ++ n /\ mem "@" u = false /\ mem "@" n = false)).
Proof.
  unfold from_str. rewrite contains_char.
  intros H.
  assert (Hat : forall hp q,
    ('(user, host) <-
       (if contains "@" hp then
          if (count "@" hp =? 1)%nat then
            match split "@" hp with
            | [user; host] => Ok (user, host)
            | _ => Raise (Builtin ValueError)
            end
          else Raise (Builtin AssertionError)
        else Ok (login, hp)) ;;
     Ok (Remote host user q)) = Ok (Remote n u p) ->
    q = p /\ ((mem "@" hp = false /\ n = hp /\ u = login)
              \/ (hp = u ++ "@" ++ n /\ mem "@" u = false /\ mem "@" n = false))).
  { intros hp q. rewrite contains_char. destruct (mem "@" hp) eqn:Em.
    - destruct (count "@" hp =? 1)%nat eqn:Ec; [|discriminate].
      apply Nat.eqb_eq in Ec.
      destruct (count_one _ _ Ec) as (a & b & Hs & Ha & Hb & Hsp).
      rewrite Hsp. cbn [bind]. intros E; inversion E; subst. auto.
    - cbn [bind]. intros E; inversion E; subst. auto. }
  destruct (mem ":" addr) eqn:Em.
  - destruct (count ":" addr =? 1)%nat eqn:Ec; [|discriminate].
    apply Nat.eqb_eq in Ec.
    destruct (count_one _ _ Ec) as (a & b & Hs & Ha & Hb & Hsp).
    rewrite Hsp in H. destruct (PyInt.int b) as [q|] eqn:Ei; [|discriminate].
    cbn [bind] in H. destruct (Hat _ _ H) as [-> Hu].
    exists a. split; [right; exists b; auto|exact Hu].
  - cbn [bind] in H. destruct (Hat _ _ H) as [<- Hu].
    exists addr. split; [left; auto|exact Hu].
Qed.

(** The host [from_str] returns prints and parses back. *)
Lemma from_str_parses login addr h :
  from_str login addr = Ok h -> host_parses login h.
Proof.
  intros H. destruct h as [|n u p]; [exact I|].
  destruct (from_str_inv _ _ _ _ _ H) as (hp & Hport & Huser).
  assert (Hhp : mem ":" hp = false).
  { destruct Hport as [(Hm & -> & _)|(q & _ & Hm & _)]; exact Hm. }
  unfold host_parses, plain.
  destruct Huser as [(Hat & -> & ->)|(-> & Hu & Hn)].
  - auto.
  - rewrite !mem_app in Hhp. apply orb_false_elim in Hhp as [Hcu Hr].
    apply orb_false_elim in Hr as [_ Hcn]. auto.
Qed.

(** A character that occurs neither in the descriptor nor in a printed
    port does not occur in the printed host. *)
Lemma Remote_str_plain login addr n u p c :
  from_str login addr = Ok (Remote n u p) ->
  mem c addr = false -> Ascii.eqb c ":" = false -> Ascii.eqb c "@" = false ->
  PyInt.int_char c = false ->
  mem c (Remote_str login n u p) = false.
Proof.
  intros H Hc Hcolon Hat Hint.
  destruct (from_str_inv _ _ _ _ _ H) as (hp & Hport & Huser).
  assert (Hhp : mem c hp = false).
  { destruct Hport as [(_ & -> & _)|(q & -> & _)]; [exact Hc|].
    rewrite mem_app in Hc. apply orb_false_elim in Hc as [Hc _]. exact Hc. }
  assert (Hx : mem c (if negb (String.eqb u login) then u ++ "@" ++ n else n)
               = false).
  { destruct Huser as [(_ & -> & ->)|(-> & _ & _)].
    - rewrite String.eqb_refl. exact Hhp.
    - destruct (negb (String.eqb u login)); [exact Hhp|].
      rewrite !mem_app in Hhp. apply orb_false_elim in Hhp as [_ Hr].
      apply orb_false_elim in Hr as [_ Hn]. exact Hn. }
  unfold Remote_str. destruct (negb (p =? _DEFAULT_PORT)%Z); [|exact Hx].
  rewrite !mem_app, Hx, (PyIntFacts.str_plain p _ Hint).
  simpl. rewrite Hcolon. reflexivity.
Qed.

Lemma at_part login n u :
  plain "@" n -> (u = login \/ (plain ":" u /\ plain "@" u)) ->
  forall q,
    ('(user, host) <-
       (let hp := if negb (String.eqb u login) then u ++ "@" ++ n else n in
        if contains "@" hp then
          if (count "@" hp =? 1)%nat then
            match split "@" hp with
            | [user; host] => Ok (user, host)
            | _ => Raise (Builtin ValueError)
            end
          else Raise (Builtin AssertionError)
        else Ok (login, hp)) ;;
     Ok (Remote host user q)) = Ok (Remote n u q).
Proof.
  unfold plain. intros Hn Hu q. cbv zeta. rewrite contains_char.
  destruct (String.eqb u login) eqn:E; cbn [negb].
  - apply String.eqb_eq in E. subst. rewrite Hn. reflexivity.
  - destruct Hu as [->|[_ Hu]]; [rewrite String.eqb_refl in E; discriminate|].
    rewrite mem_app. change ("@" ++ n) with (String "@" n).
    rewrite mem_cons, Ascii.eqb_refl, orb_true_r.
    destruct (count_one_app "@" u n Hu Hn) as [-> ->]. reflexivity.
Qed.

Lemma from_str_print login n u p :
  host_parses login (Remote n u p) ->
  from_str login (Remote_str login n u p) = Ok (Remote n u p).
Proof.
  intros (Hcn & Han & Hu).
  set (hp := if negb (String.eqb u login) then u ++ "@" ++ n else n).
  assert (Hhp : mem ":" hp = false).
  { unfold hp, plain in *. destruct (negb (String.eqb u login)) eqn:E; [|exact Hcn].
    destruct Hu as [->|[Hcu _]]; [rewrite String.eqb_refl in E; discriminate|].
    rewrite !mem_app, Hcu, Hcn. reflexivity. }
  pose proof (at_part login n u Han Hu) as Hat. cbv zeta in Hat. fold hp in Hat.
  unfold from_str, Remote_str. fold hp. rewrite contains_char.
  destruct (p =? _DEFAULT_PORT)%Z eqn:Ep; cbn [negb].
  - apply Z.eqb_eq in Ep. subst p. rewrite Hhp. cbn [bind]. apply Hat.
  - change (":" ++ PyInt.str p) with (String ":" (PyInt.str p)).
    rewrite mem_app, mem_cons, Ascii.eqb_refl, orb_true_r.
    assert (Hs : mem ":" (PyInt.str p) = false)
      by (apply PyIntFacts.str_plain; reflexivity).
    destruct (count_one_app ":" hp (PyInt.str p) Hhp Hs) as [-> ->].
    cbn [Nat.eqb]. rewrite PyIntFacts.int_str. cbn [bind]. apply Hat.
Qed.

End SshFacts.

(** * Facts about the address grammar *)

Module SplitFacts.
Import StrFacts SshFacts.

Local Abbreviation mem := Str.mem.
Local Abbreviation contains := Str.contains.
Local Abbreviation startswith := Str.startswith.
Local Abbreviation find := Str.find.
Local Abbreviation index := Str.index.
Local Abbreviation partition := Str.partition.
Local Abbreviation split_max1 := Str.split_max1.

Lemma contains_pair_cons c1 c2 x s :
  contains (String c1 (String c2 "")) (String x s)
  = (Ascii.eqb c1 x && startswith (String c2 "") s)
    || contains (String c1 (String c2 "")) s.
Proof.
  unfold contains.
  change (find (String c1 (String c2 "")) (String x s))
    with (if (if Ascii.eqb c1 x then startswith (String c2 "") s else false)
          then Some O
          else option_map S (find (String c1 (String c2 "")) s)).
  destruct (Ascii.eqb c1 x); cbn [andb orb].
  - destruct (startswith (String c2 "") s); [reflexivity|].
    destruct (find (String c1 (String c2 "")) s); reflexivity.
  - destruct (find (String c1 (String c2 "")) s); reflexivity.
Qed.

Lemma contains_pair_plain c1 c2 a s :
  mem c1 a = false ->
  contains (String c1 (String c2 "")) (a ++ s)
  = contains (String c1 (String c2 "")) s.
Proof.
  induction a as [|x a IH]; intros H; [reflexivity|].
  rewrite mem_cons in H. apply orb_false_elim in H as [Hx Ha].
  simpl append. rewrite contains_pair_cons, Hx, (IH Ha). reflexivity.
Qed.

Lemma startswith_plain c a d y :
  mem c a = false -> Ascii.eqb c d = false ->
  startswith (String c "") (a ++ String d y) = false.
Proof.
  intros Ha Hd. destruct a as [|x a]; simpl append; cbn [startswith].
  - rewrite Hd. reflexivity.
  - rewrite mem_cons in Ha. apply orb_false_elim in Ha as [-> _]. reflexivity.
Qed.

(** *** The guard of a remote branch *)

Lemma colon_first_true c s :
  Ascii.eqb ":" c = false -> colon_just_before_first c s ->
  colon_first s (String ":" (String c "")) (String c "") = Ok true.
Proof.
  intros Hc (a & b & -> & Ha). unfold colon_first.
  change (a ++ ":" ++ String c b) with (a ++ String ":" (String c "") ++ b).
  rewrite contains_app.
  change (a ++ String ":" (String c "") ++ b) with (a ++ String ":" (String c b)).
  destruct (find_lt_app ":" c a (String c b)) as (i & j & Hi & Hj & Hlt).
  - intros E. subst c. rewrite Ascii.eqb_refl in Hc. discriminate.
  - exact Ha.
  - rewrite mem_cons, Ascii.eqb_refl. reflexivity.
  - unfold index. rewrite Hi, Hj. cbn [bind].
    apply Nat.ltb_lt in Hlt. rewrite Hlt. reflexivity.
Qed.

Lemma colon_first_inv c mark s :
  colon_first s mark (String c "") = Ok true ->
  contains mark s = true
  /\ exists a b, s = a ++ String ":" b /\ mem ":" a = false /\ mem c a = false.
Proof.
  unfold colon_first, index. destruct (contains mark s); [|discriminate].
  destruct (find ":" s) as [i|] eqn:Hi; [|discriminate].
  destruct (find (String c "") s) as [j|] eqn:Hj; [|discriminate].
  cbn [bind]. intros H. injection H as Hlt. apply Nat.ltb_lt in Hlt.
  split; [reflexivity|]. exact (find_lt_split ":" c s i j Hi Hj Hlt).
Qed.

Lemma colon_first_absent c mark s :
  contains mark s = false -> colon_first s mark c = Ok false.
Proof. unfold colon_first. intros ->. reflexivity. Qed.

(** A descriptor that [from_str] accepts and that ends at a colon after
    which the first [c] stands holds no [c]. *)
Lemma addr_plain login c s addr rest h :
  Ascii.eqb c ":" = false -> PyInt.int_char c = false ->
  (exists a b, s = a ++ String ":" b /\ mem ":" a = false /\ mem c a = false) ->
  s = addr ++ String ":" rest -> from_str login addr = Ok h ->
  mem c addr = false.
Proof.
  intros Hcolon Hint (a & b & Hs & Hca & Hcc) Hs' Hf. subst s.
  destruct (cut_first ":" a b addr rest Hca Hs') as [[-> _]|(x & Hx & _)];
    [exact Hcc|].
  destruct h as [|n u p];
    [apply from_str_remote in Hf; discriminate|].
  destruct (from_str_inv _ _ _ _ _ Hf) as (hp & Hport & _).
  destruct Hport as [(Hm & _)|(q & Hq & Hhp & _ & Hi)].
  - rewrite Hx, mem_app, mem_cons, Ascii.eqb_refl, orb_true_r in Hm.
    discriminate.
  - rewrite Hx in Hq. change (":" ++ q) with (String ":" q) in Hq.
    destruct (cut_first ":" a x hp q Hca Hq) as [[-> ->]|(z & Hz & _)].
    + rewrite Hx, mem_app, mem_cons, Hcc, Hcolon.
      exact (PyIntFacts.int_plain _ _ _ Hi Hint).
    + rewrite Hz, mem_app, mem_cons, Ascii.eqb_refl, orb_true_r in Hhp.
      discriminate.
Qed.

(** *** The three ways [split] returns *)

Lemma split_inv login s h p :
  split login s = Ok (h, p) ->
  (h = Local /\ p = PurePath.of_str s
   /\ colon_first s ":/" "/" = Ok false /\ colon_first s ":~" "~" = Ok false)
  \/ (exists addr rest,
        s = addr ++ ":/" ++ rest /\ colon_first s ":/" "/" = Ok true
        /\ from_str login addr = Ok h /\ p = PurePath.of_str (String "/" rest)
        /\ mem "/" addr = false)
  \/ (exists addr rest,
        s = addr ++ ":~" ++ rest /\ colon_first s ":/" "/" = Ok false
        /\ colon_first s ":~" "~" = Ok true
        /\ from_str login addr = Ok h /\ p = PurePath.of_str (String "~" rest)
        /\ mem "~" addr = false).
Proof.
  unfold split, split2, split_max1.
  destruct (colon_first s ":/" "/") as [[|]|e] eqn:E1; cbn [bind];
    [| |discriminate].
  - destruct (colon_first_inv _ _ _ E1) as [Hc Hdec].
    apply contains_partition in Hc as (addr & rest & Hp). rewrite Hp.
    cbn [bind]. destruct (from_str login addr) as [h'|] eqn:Hf; [|discriminate].
    cbn [bind]. intros H. inversion H; subst. right; left.
    apply partition_sound in Hp. exists addr, rest.
    repeat split; auto.
    eapply addr_plain with (c := "/"%char) (rest := String "/" rest);
      eauto; reflexivity.
  - destruct (colon_first s ":~" "~") as [[|]|e] eqn:E2; cbn [bind];
      [| |discriminate].
    + destruct (colon_first_inv _ _ _ E2) as [Hc Hdec].
      apply contains_partition in Hc as (addr & rest & Hp). rewrite Hp.
      cbn [bind]. destruct (from_str login addr) as [h'|] eqn:Hf; [|discriminate].
      cbn [bind]. intros H. inversion H; subst. right; right.
      apply partition_sound in Hp. exists addr, rest.
      repeat split; auto.
      eapply addr_plain with (c := "~"%char) (rest := String "~" rest);
        eauto; reflexivity.
    + intros H. inversion H; subst. left. auto.
Qed.

(** [split] never fails while it looks for the marks: it raises only out
    of [from_str]. *)
Lemma split_local s login :
  colon_first s ":/" "/" = Ok false -> colon_first s ":~" "~" = Ok false ->
  split login s = Ok (Local, PurePath.of_str s).
Proof. intros H1 H2. unfold split. rewrite H1. cbn [bind]. rewrite H2. reflexivity. Qed.

Lemma split_slash login addr rest :
  mem "/" addr = false ->
  split login (addr ++ ":/" ++ rest)
  = h <- from_str login addr ;; Ok (h, PurePath.of_str (String "/" rest)).
Proof.
  intros Ha. unfold split.
  rewrite (colon_first_true "/" (addr ++ ":/" ++ rest) eq_refl)
    by (exists addr, rest; auto).
  cbn [bind]. unfold split2, split_max1.
  change (addr ++ ":/" ++ rest) with (addr ++ String ":" (String "/" rest)).
  rewrite partition_pair by (congruence || exact Ha).
  cbn [bind]. destruct (from_str login addr); reflexivity.
Qed.

Lemma split_tilde login addr rest :
  mem "~" addr = false ->
  colon_first (addr ++ ":~" ++ rest) ":/" "/" = Ok false ->
  split login (addr ++ ":~" ++ rest)
  = h <- from_str login addr ;; Ok (h, PurePath.of_str (String "~" rest)).
Proof.
  intros Ha H1. unfold split. rewrite H1. cbn [bind].
  rewrite (colon_first_true "~" (addr ++ ":~" ++ rest) eq_refl)
    by (exists addr, rest; auto).
  cbn [bind]. unfold split2, split_max1.
  change (addr ++ ":~" ++ rest) with (addr ++ String ":" (String "~" rest)).
  rewrite partition_pair by (congruence || exact Ha).
  cbn [bind]. destruct (from_str login addr); reflexivity.
Qed.

End SplitFacts.

(** * Printing a path and reading it again *)

Module RoundTrip.
Import StrFacts SshFacts SplitFacts PurePathFacts.

Local Abbreviation mem := Str.mem.
Local Abbreviation contains := Str.contains.
Local Abbreviation startswith := Str.startswith.

Lemma user_host_plain login n u p :
  host_parses login (Remote n u p) ->
  mem ":" (if negb (String.eqb u login) then u ++ "@" ++ n else n) = false.
Proof.
  unfold host_parses, plain. intros (Hcn & _ & Hu).
  destruct (negb (String.eqb u login)) eqn:E; [|exact Hcn].
  destruct Hu as [->|[Hcu _]]; [rewrite String.eqb_refl in E; discriminate|].
  rewrite !mem_app, Hcu, Hcn. reflexivity.
Qed.

(** No colon of a printed host stands before a slash. *)
Lemma prefix_no_colon_slash login n u p b :
  host_parses login (Remote n u p) ->
  startswith "/" b = false -> contains ":/" b = false ->
  contains ":/" (Remote_str login n u p ++ String ":" b) = false.
Proof.
  intros Hh Hb1 Hb2. pose proof (user_host_plain login n u p Hh) as Hhp.
  assert (Htail : contains ":/" (String ":" b) = false).
  { rewrite contains_pair_cons, Hb1, Hb2. reflexivity. }
  unfold Remote_str. destruct (negb (p =? _DEFAULT_PORT)%Z).
  - rewrite !app_assoc. rewrite (contains_pair_plain ":" "/" _ _ Hhp).
    change (":" ++ PyInt.str p ++ String ":" b)
      with (String ":" (PyInt.str p ++ String ":" b)).
    rewrite contains_pair_cons.
    rewrite startswith_plain
      by (reflexivity || apply PyIntFacts.str_plain; reflexivity).
    rewrite contains_pair_plain by (apply PyIntFacts.str_plain; reflexivity).
    rewrite Htail. reflexivity.
  - rewrite (contains_pair_plain ":" "/" _ _ Hhp). exact Htail.
Qed.

(** The text [str] gives for what [split] returned splits into the same
    host and bare path, when the bare path shows no [:/] and no [:~]. *)
Lemma split_print login s h p :
  split login s = Ok (h, p) ->
  contains ":/" (PurePath.to_str p) = false ->
  contains ":~" (PurePath.to_str p) = false ->
  split login (prefix login h ++ PurePath.to_str p) = Ok (h, p).
Proof.
  intros Hs H1 H2.
  destruct (split_inv _ _ _ _ Hs)
    as [(-> & -> & _)
       |[(addr & rest & _ & _ & Hf & -> & Ha)
        |(addr & rest & _ & _ & _ & Hf & -> & Ha)]].
  - cbn [prefix]. change ("" ++ ?x) with x.
    rewrite split_local by (apply colon_first_absent; assumption).
    rewrite of_to_of. reflexivity.
  - destruct h as [|n u q]; [apply from_str_remote in Hf; discriminate|].
    cbn [prefix]. destruct (to_str_rooted rest) as [r Hr].
    assert (Hd : mem "/" (Remote_str login n u q) = false)
      by (eapply Remote_str_plain; eauto).
    rewrite Hr, app_assoc.
    change (":" ++ String "/" r) with (":/" ++ r).
    rewrite (split_slash login _ r Hd).
    rewrite (from_str_print login n u q (from_str_parses _ _ _ Hf)).
    cbn [bind]. rewrite <- Hr, of_to_of. reflexivity.
  - destruct h as [|n u q]; [apply from_str_remote in Hf; discriminate|].
    cbn [prefix]. destruct (to_str_home rest) as [r Hr].
    assert (Hd : mem "~" (Remote_str login n u q) = false)
      by (eapply Remote_str_plain; eauto).
    rewrite Hr in H1. rewrite Hr, app_assoc.
    change (":" ++ String "~" r) with (":~" ++ r).
    rewrite (split_tilde login _ r Hd).
    + rewrite (from_str_print login n u q (from_str_parses _ _ _ Hf)).
      cbn [bind]. rewrite <- Hr, of_to_of. reflexivity.
    + apply colon_first_absent.
      change (":~" ++ r) with (String ":" (String "~" r)).
      apply prefix_no_colon_slash;
        [exact (from_str_parses _ _ _ Hf)|reflexivity|exact H1].
Qed.

End RoundTrip.

(** * Properties of the library *)

Lemma Host_eqb_eq h k : Host_eqb h k = true <-> h = k.
Proof.
  destruct h as [|n u p], k as [|n' u' p']; simpl;
    try (split; [discriminate|congruence]); [tauto|].
  rewrite !andb_true_iff, !String.eqb_eq, Z.eqb_eq.
  split; [intros [[-> ->] ->]; reflexivity|].
  intros H; inversion H; auto.
Qed.

Lemma Host_eqb_neq h k : h <> k -> Host_eqb h k = false.
Proof.
  intros H. destruct (Host_eqb h k) eqn:E; [|reflexivity].
  apply Host_eqb_eq in E. contradiction.
Qed.

Lemma Path_eqb_eq x y : Path_eqb x y = true <-> x = y.
Proof.
  destruct x as [h p], y as [k q]. unfold Path_eqb. cbn [_host _path].
  rewrite andb_true_iff, PurePathFacts.eqb_eq, Host_eqb_eq.
  split; [intros [-> ->]; reflexivity|]. intros H; inversion H; auto.
Qed.

(** C1: a path built from a combined string, whose bare path shows neither
    [:/] nor [:~] when printed, is printed by [str] as a string that the
    constructor reads back as an equal path. *)
Theorem str_round_trip login s x :
  Path_init login (ArgStr s) = Ok x ->
  Str.contains ":/" (PurePath.to_str (_path x)) = false ->
  Str.contains ":~" (PurePath.to_str (_path x)) = false ->
  exists y,
    Path_init login (ArgStr (Path_str login x)) = Ok y
    /\ Path_eqb y x = true /\ y = x.
Proof.
  intros Hx H1 H2. cbn [Path_init] in Hx.
  destruct (split login s) as [[h p]|] eqn:Hs; [|discriminate].
  cbn [bind] in Hx. injection Hx as <-. cbn [_path] in H1, H2.
  exists (mkPath h p). cbn [Path_init]. unfold Path_str. cbn [_host _path].
  rewrite (RoundTrip.split_print login s h p Hs H1 H2). cbn [bind].
  repeat split. apply Path_eqb_eq. reflexivity.
Qed.

Lemma str_round_trip_witness :
  exists y,
    Path_init "root"
      (ArgStr (Path_str "root"
                 (mkPath (Remote "there" "me" 60) (PurePath.mk "" ["~"; "x"]))))
    = Ok y
    /\ Path_eqb y (mkPath (Remote "there" "me" 60) (PurePath.mk "" ["~"; "x"]))
       = true
    /\ y = mkPath (Remote "there" "me" 60) (PurePath.mk "" ["~"; "x"]).
Proof.
  apply (str_round_trip "root" "me@there:60:~/x"); reflexivity.
Defined.

(** C3, as the code has it: when [split] returns, the host is remote
    exactly when a colon stands just before the first slash or just before
    the first tilde of the string; then the text before that colon is the
    host descriptor and the text from the slash or tilde on is the bare
    path; otherwise the host is local and the whole string is the bare
    path. *)
Theorem split_remote_iff login s h p :
  split login s = Ok (h, p) ->
  (is_remote h = true <->
   colon_just_before_first "/" s \/ colon_just_before_first "~" s)
  /\ (is_remote h = true ->
      exists c addr rest,
        (c = "/" \/ c = "~")%char
        /\ s = addr ++ ":" ++ String c rest /\ Str.mem c addr = false
        /\ from_str login addr = Ok h /\ p = PurePath.of_str (String c rest))
  /\ (is_remote h = false -> h = Local /\ p = PurePath.of_str s).
Proof.
  intros Hs.
  destruct (SplitFacts.split_inv _ _ _ _ Hs)
    as [(-> & -> & N1 & N2)
       |[(addr & rest & -> & _ & Hf & -> & Ha)
        |(addr & rest & -> & _ & _ & Hf & -> & Ha)]].
  - split; [|split; [discriminate|auto]].
    split; [discriminate|]. intros [H|H].
    + rewrite (SplitFacts.colon_first_true "/" s eq_refl H) in N1. discriminate.
    + rewrite (SplitFacts.colon_first_true "~" s eq_refl H) in N2. discriminate.
  - pose proof (SshFacts.from_str_remote _ _ _ Hf) as Hr. rewrite Hr.
    split; [|split; [|discriminate]].
    + split; [|reflexivity]. intros _. left. exists addr, rest. auto.
    + intros _. exists "/"%char, addr, rest. auto 6.
  - pose proof (SshFacts.from_str_remote _ _ _ Hf) as Hr. rewrite Hr.
    split; [|split; [|discriminate]].
    + split; [|reflexivity]. intros _. right. exists addr, rest. auto.
    + intros _. exists "~"%char, addr, rest. auto 6.
Qed.

Lemma split_remote_iff_witness :
  (is_remote (Remote "1" "root" 2) = true <->
   colon_just_before_first "/" "1:2:/3" \/ colon_just_before_first "~" "1:2:/3")
  /\ (is_remote (Remote "1" "root" 2) = true ->
      exists c addr rest,
        (c = "/" \/ c = "~")%char
        /\ "1:2:/3" = addr ++ ":" ++ String c rest /\ Str.mem c addr = false
        /\ from_str "root" addr = Ok (Remote "1" "root" 2)
        /\ PurePath.mk "/" ["3"] = PurePath.of_str (String c rest))
  /\ (is_remote (Remote "1" "root" 2) = false ->
      Remote "1" "root" 2 = Local
      /\ PurePath.mk "/" ["3"] = PurePath.of_str "1:2:/3").
Proof.
  apply (split_remote_iff "root" "1:2:/3"). reflexivity.
Defined.

(** C3 as stated fails: in [a:b/c] a colon comes before the first slash,
    and [split] returns the local host with the whole string as bare
    path. *)
Lemma split_colon_before_slash_local :
  colon_before_first "/" "a:b/c"
  /\ split "root" "a:b/c" = Ok (Local, PurePath.mk "" ["a:b"; "c"]).
Proof.
  split; [|reflexivity]. exists 1%nat, 3%nat. repeat split. lia.
Qed.

(** C5: the two examples of the tests, whatever the login name is. *)
Theorem path_init_examples login :
  Path_init login (ArgStr "me@there:60:~")
  = Ok (mkPath (Remote "there" "me" 60) (PurePath.mk "" ["~"]))
  /\ PurePath.to_str (PurePath.mk "" ["~"]) = "~"
  /\ Path_init login (ArgStr "me@there:/fo:o/bar")
     = Ok (mkPath (Remote "there" "me" _DEFAULT_PORT)
             (PurePath.mk "/" ["fo:o"; "bar"]))
  /\ PurePath.to_str (PurePath.mk "/" ["fo:o"; "bar"]) = "/fo:o/bar".
Proof. repeat split. Qed.

(** C9, as the code has it: the host name [split] returns is empty exactly
    when the first colon of the string is its first character or follows
    an [@]; for every other string with a remote prefix it is not empty. *)
Theorem split_hostname_nonempty login s n u p bp :
  split login s = Ok (Remote n u p, bp) ->
  (n = "" <-> colon_leads s) /\ (~ colon_leads s -> n <> "").
Proof.
  intros Hs.
  assert (Hcut : exists addr y, s = addr ++ String ":" y
                                /\ from_str login addr = Ok (Remote n u p)).
  { destruct (SplitFacts.split_inv _ _ _ _ Hs)
      as [(Hl & _)|[(addr & rest & -> & _ & Hf & _)
                   |(addr & rest & -> & _ & _ & Hf & _)]];
      [discriminate
      |exists addr, (String "/" rest); split; [reflexivity|exact Hf]
      |exists addr, (String "~" rest); split; [reflexivity|exact Hf]]. }
  destruct Hcut as (addr & y & -> & Hf).
  destruct (SshFacts.from_str_inv _ _ _ _ _ Hf) as (hp & Hport & Huser).
  assert (Hhp : Str.mem ":" hp = false
                /\ exists y', addr ++ String ":" y = hp ++ String ":" y').
  { destruct Hport as [(Hm & -> & _)|(q & -> & Hm & _)]; [eauto|].
    split; [exact Hm|]. exists (q ++ String ":" y).
    rewrite StrFacts.app_assoc. reflexivity. }
  destruct Hhp as (Hcolon & y' & Ey). rewrite Ey. clear Ey.
  assert (Hiff : n = "" <-> colon_leads (hp ++ String ":" y')).
  { split.
    - intros ->. destruct Huser as [(_ & <- & _)|(-> & _)].
      + left. reflexivity.
      + right. exists u, y'. rewrite StrFacts.app_assoc.
        rewrite !StrFacts.mem_app in Hcolon.
        apply orb_false_elim in Hcolon as [Hu _]. auto.
    - intros [Hstart|(pre & post & Hcut & Hpre)].
      + destruct hp as [|c hp].
        * destruct Huser as [(_ & -> & _)|(Hx & _)]; [reflexivity|].
          destruct u; discriminate.
        * cbn [append Str.startswith] in Hstart.
          rewrite StrFacts.mem_cons in Hcolon.
          destruct (Ascii.eqb ":" c); simpl in *; discriminate.
      + assert (Hpre' : Str.mem ":" (pre ++ "@") = false)
          by (rewrite StrFacts.mem_app, Hpre; reflexivity).
        assert (E : hp ++ String ":" y' = (pre ++ "@") ++ String ":" post)
          by (rewrite Hcut, StrFacts.app_assoc; reflexivity).
        destruct (StrFacts.cut_first ":" hp y' (pre ++ "@") post Hcolon E)
          as [[Ehp _]|(x & Ex & _)].
        2:{ rewrite Ex, StrFacts.mem_app, StrFacts.mem_cons, Ascii.eqb_refl,
              orb_true_r in Hpre'. discriminate. }
        destruct Huser as [(Hat & _)|(Hx & Hu & Hn)].
        * rewrite <- Ehp, StrFacts.mem_app in Hat.
          rewrite orb_true_r in Hat. discriminate.
        * rewrite Hx in Ehp.
          change ("@" ++ n) with (String "@" n) in Ehp.
          change (pre ++ "@") with (pre ++ String "@" "") in Ehp.
          destruct (StrFacts.cut_first "@" u n pre "" Hu (eq_sym Ehp))
            as [[_ En]|(x & _ & Ex)]; [congruence|].
          rewrite Ex, StrFacts.mem_app, StrFacts.mem_cons, Ascii.eqb_refl,
            orb_true_r in Hn. discriminate. }
  split; [exact Hiff|]. intros Hnot Hn. apply Hnot, Hiff, Hn.
Qed.

Lemma split_hostname_nonempty_witness :
  ("there" = "" <-> colon_leads "me@there:60:~")
  /\ (~ colon_leads "me@there:60:~" -> "there" <> "").
Proof.
  apply (split_hostname_nonempty "root" "me@there:60:~" "there" "me" 60
           (PurePath.mk "" ["~"])); reflexivity.
Defined.

(** C9 as stated fails: [:/x] has a remote prefix and its host name is
    empty; so is the host name of [me@:/x]. *)
Lemma split_empty_hostname :
  split "root" ":/x" = Ok (Remote "" "root" _DEFAULT_PORT, PurePath.mk "/" ["x"])
  /\ split "root" "me@:/x"
     = Ok (Remote "" "me" _DEFAULT_PORT, PurePath.mk "/" ["x"]).
Proof. split; reflexivity. Qed.

(** C2 fails on the code: [_add_remote] prints the host prefix and the new
    bare path and reads the string again, and the second reading finds
    another host.  With the login name [root]: the parent of
    [me@there:~] is the local path [me@there:.]; [h:/a/b] relative to
    [h:/a] is the local path [h:b]; and the local path [a:] joined with
    [b] is [/b] on the remote host [a]. *)
Theorem add_remote_changes_host :
  (x <- Path_init "root" (ArgStr "me@there:~") ;; parent "root" x)
  = Ok (mkPath Local (PurePath.mk "" ["me@there:."]))
  /\ (x <- Path_init "root" (ArgStr "h:/a/b") ;;
      y <- Path_init "root" (ArgStr "h:/a") ;;
      relative_to "root" x (ArgPath y))
     = Ok (mkPath Local (PurePath.mk "" ["h:b"]))
  /\ (x <- Path_init "root" (ArgStr "a:") ;; truediv "root" x (ArgStr "b"))
     = Ok (mkPath (Remote "a" "root" _DEFAULT_PORT) (PurePath.mk "/" ["b"]))
  /\ Path_init "root" (ArgStr "me@there:~")
     = Ok (mkPath (Remote "there" "me" _DEFAULT_PORT) (PurePath.mk "" ["~"]))
  /\ Path_init "root" (ArgStr "h:/a/b")
     = Ok (mkPath (Remote "h" "root" _DEFAULT_PORT) (PurePath.mk "/" ["a"; "b"]))
  /\ Path_init "root" (ArgStr "a:") = Ok (mkPath Local (PurePath.mk "" ["a:"])).
Proof. repeat split. Qed.

(** ** Relative paths and joins *)

Lemma is_prefix_spec l m :
  PurePath.is_prefix l m = true <-> exists rest, m = (l ++ rest)%list.
Proof.
  revert m. induction l as [|x l IH]; intros m; simpl.
  - split; eauto.
  - destruct m as [|y m].
    + split; [discriminate|]. intros [r Hr]. discriminate.
    + rewrite andb_true_iff, String.eqb_eq, IH. split.
      * intros [-> [r ->]]. eauto.
      * intros [r Hr]. inversion Hr; subst. eauto.
Qed.

Lemma is_relative_to_spec p q :
  PurePath.is_relative_to p q = true <-> bare_prefix q p.
Proof.
  unfold PurePath.is_relative_to, bare_prefix.
  rewrite andb_true_iff, String.eqb_eq, is_prefix_spec. tauto.
Qed.

(** C6: between paths whose hosts differ, or whose bare paths are not in a
    prefix relationship, [relative_to] raises [ValueError]; and when the
    hosts differ [is_relative_to] returns [False]. *)
Theorem relative_to_unrelated login self other :
  _host self <> _host other \/ ~ bare_prefix (_path other) (_path self) ->
  (exists e,
     relative_to login self (ArgPath other) = Raise e
     /\ class_of e = Some ValueError)
  /\ (_host self <> _host other ->
      relative_to login self (ArgPath other)
      = Raise (Raised ValueError "hosts must match")
      /\ is_relative_to login self (ArgPath other) = Ok false).
Proof.
  intros H. unfold relative_to, is_relative_to. cbn [Path_init bind _host _path].
  split.
  - destruct (Host_eqb (_host self) (_host other)) eqn:E; cbn [negb];
      [|eexists; split; reflexivity].
    destruct H as [H|H]; [apply Host_eqb_eq in E; contradiction|].
    unfold PurePath.relative_to.
    destruct (PurePath.is_relative_to (_path self) (_path other)) eqn:Er.
    + apply is_relative_to_spec in Er. contradiction.
    + cbn [bind]. eexists; split; reflexivity.
  - intros Hne. rewrite (Host_eqb_neq _ _ Hne). split; reflexivity.
Qed.

Lemma relative_to_unrelated_witness :
  (exists e,
     relative_to "root"
       (mkPath (Remote "a" "root" 22) (PurePath.mk "/" ["x"; "y"]))
       (ArgPath (mkPath Local (PurePath.mk "/" ["x"])))
     = Raise e
     /\ class_of e = Some ValueError)
  /\ (Remote "a" "root" 22 <> Local ->
      relative_to "root"
        (mkPath (Remote "a" "root" 22) (PurePath.mk "/" ["x"; "y"]))
        (ArgPath (mkPath Local (PurePath.mk "/" ["x"])))
      = Raise (Raised ValueError "hosts must match")
      /\ is_relative_to "root"
           (mkPath (Remote "a" "root" 22) (PurePath.mk "/" ["x"; "y"]))
           (ArgPath (mkPath Local (PurePath.mk "/" ["x"])))
         = Ok false).
Proof.
  apply (relative_to_unrelated "root"
           (mkPath (Remote "a" "root" 22) (PurePath.mk "/" ["x"; "y"]))
           (mkPath Local (PurePath.mk "/" ["x"]))).
  left. cbn [_host]. discriminate.
Defined.

(** C7: joining two paths whose hosts differ raises [ValueError]; joining,
    on one host, a path whose bare path is absolute gives what the
    constructor reads from the string of the right operand alone, so the
    left bare path has no part in the result; it is the right operand
    itself when that one was read from a string and prints without [:/]
    and [:~] in its bare path. *)
Theorem truediv_hosts login self key :
  (_host self <> _host key ->
   truediv login self (ArgPath key)
   = Raise (Raised ValueError "Hosts must be the same when joining paths"))
  /\ (_host self = _host key ->
      is_absolute key = true ->
      truediv login self (ArgPath key)
      = Path_init login (ArgStr (Path_str login key))
      /\ (forall left,
             truediv login (mkPath (_host self) left) (ArgPath key)
             = truediv login self (ArgPath key))
      /\ (forall s,
             Path_init login (ArgStr s) = Ok key ->
             Str.contains ":/" (PurePath.to_str (_path key)) = false ->
             Str.contains ":~" (PurePath.to_str (_path key)) = false ->
             truediv login self (ArgPath key) = Ok key)).
Proof.
  unfold truediv, _add_remote, Path_str, PurePath.truediv.
  cbn [Path_init bind _host _path]. split.
  - intros Hne. rewrite (Host_eqb_neq _ _ Hne). reflexivity.
  - intros He Ha. unfold is_absolute in Ha. rewrite He, Ha.
    rewrite (proj2 (Host_eqb_eq _ _) eq_refl). cbn [negb bind].
    split; [reflexivity|]. split; [reflexivity|].
    intros s Hs H1 H2.
    destruct (split login s) as [[h p]|] eqn:E; [|discriminate].
    cbn [bind] in Hs. injection Hs as <-. cbn [_host _path] in *.
    rewrite (RoundTrip.split_print login s h p E H1 H2). reflexivity.
Qed.

Lemma truediv_hosts_witness :
  truediv "root" (mkPath Local (PurePath.mk "" ["a"]))
    (ArgPath (mkPath Local (PurePath.mk "/" ["b"])))
  = Ok (mkPath Local (PurePath.mk "/" ["b"]))
  /\ truediv "root" (mkPath (Remote "h" "root" 22) (PurePath.mk "/" ["a"]))
       (ArgPath (mkPath (Remote "k" "root" 22) (PurePath.mk "/" ["b"])))
     = Raise (Raised ValueError "Hosts must be the same when joining paths").
Proof.
  split.
  - destruct (truediv_hosts "root" (mkPath Local (PurePath.mk "" ["a"]))
                (mkPath Local (PurePath.mk "/" ["b"]))) as [_ H].
    destruct (H eq_refl eq_refl) as (_ & _ & Hk).
    apply (Hk "/b"); reflexivity.
  - apply (truediv_hosts "root"). cbn [_host]. discriminate.
Defined.

(** ** Error translation *)

Section Dict.
Context {V : Type}.

Lemma dict_get_set (d : dict V) k v k' :
  dict_get (dict_set d k v) k'
  = if String.eqb k k' then Some v else dict_get d k'.
Proof.
  induction d as [|[k0 v0] d IH]; simpl.
  - reflexivity.
  - destruct (String.eqb k0 k) eqn:E0; simpl.
    + apply String.eqb_eq in E0. subst k0.
      destruct (String.eqb k k'); reflexivity.
    + destruct (String.eqb k0 k') eqn:E1; [|exact IH].
      apply String.eqb_eq in E1. subst k0.
      rewrite String.eqb_sym, E0. reflexivity.
Qed.

Lemma dict_get_absent (e : dict V) k :
  ~ In k (map fst e) -> dict_get e k = None.
Proof.
  induction e as [|[k0 v0] e IH]; simpl; intros H; [reflexivity|].
  destruct (String.eqb k0 k) eqn:E.
  - apply String.eqb_eq in E. tauto.
  - apply IH. tauto.
Qed.

(** In [d | e] a key of [e] has the value [e] gives it, and any other key
    the value it has in [d]. *)
Lemma dict_get_or (d e : dict V) k :
  NoDup (map fst e) ->
  dict_get (dict_or d e) k
  = match dict_get e k with
    | Some v => Some v
    | None => dict_get d k
    end.
Proof.
  unfold dict_or. revert d. induction e as [|[k0 v0] e IH]; intros d Hn; simpl.
  - reflexivity.
  - inversion Hn as [|? ? Hk Hn']; subst. rewrite (IH _ Hn'), dict_get_set.
    destruct (String.eqb k0 k) eqn:E.
    + apply String.eqb_eq in E. subst k0.
      rewrite (dict_get_absent e k Hk). reflexivity.
    + reflexivity.
Qed.

Lemma dict_set_keys (d : dict V) k v k' :
  In k' (map fst (dict_set d k v)) -> k' = k \/ In k' (map fst d).
Proof.
  induction d as [|[k0 v0] d IH]; simpl.
  - intros [<-|[]]. auto.
  - destruct (String.eqb k0 k); simpl; intros [H|H]; auto.
    destruct (IH H); auto.
Qed.

Lemma dict_set_nodup (d : dict V) k v :
  NoDup (map fst d) -> NoDup (map fst (dict_set d k v)).
Proof.
  induction d as [|[k0 v0] d IH]; simpl; intros H.
  - constructor; [intros []|constructor].
  - inversion H as [|? ? Hk Hd]; subst.
    destruct (String.eqb k0 k) eqn:E; simpl.
    + constructor; assumption.
    + constructor; [|apply IH, Hd]. intros Hin.
      destruct (dict_set_keys _ _ _ _ Hin) as [->|Hin'];
        [rewrite String.eqb_refl in E; discriminate|contradiction].
Qed.

Lemma dict_or_nodup (d e : dict V) :
  NoDup (map fst d) -> NoDup (map fst (dict_or d e)).
Proof.
  unfold dict_or. revert d. induction e as [|[k0 v0] e IH]; intros d H; simpl.
  - exact H.
  - apply IH, dict_set_nodup, H.
Qed.

Lemma dict_get_in (d : dict V) k v :
  NoDup (map fst d) -> In (k, v) d -> dict_get d k = Some v.
Proof.
  induction d as [|[k0 v0] d IH]; simpl; intros Hn Hin; [contradiction|].
  destruct Hin as [H|H].
  - inversion H; subst. rewrite String.eqb_refl. reflexivity.
  - inversion Hn as [|? ? Hk Hd]; subst.
    destruct (String.eqb k0 k) eqn:E; [|apply IH; assumption].
    apply String.eqb_eq in E. subst k0. exfalso. apply Hk.
    apply (in_map fst) in H. exact H.
Qed.

Lemma dict_get_some (d : dict V) k v : dict_get d k = Some v -> In (k, v) d.
Proof.
  induction d as [|[k0 v0] d IH]; simpl; [discriminate|].
  destruct (String.eqb k0 k) eqn:E; [|auto].
  apply String.eqb_eq in E. intros H; inversion H; subst. auto.
Qed.

End Dict.

Lemma classify_snoc d k c stderr e0 :
  classify (d ++ [(k, c)])%list stderr e0
  = if Str.contains k stderr then Raised c stderr else classify d stderr e0.
Proof. unfold classify. rewrite fold_left_app. reflexivity. Qed.

(** The loop either keeps the process error, and then no key occurs in
    [stderr], or ends on the class of a key that does. *)
Lemma classify_spec d stderr e0 :
  (classify d stderr e0 = e0
   /\ forall k c, In (k, c) d -> Str.contains k stderr = false)
  \/ (exists k c, In (k, c) d /\ Str.contains k stderr = true
                  /\ classify d stderr e0 = Raised c stderr).
Proof.
  induction d as [|[k c] d IH] using rev_ind.
  - left. split; [reflexivity|]. intros ? ? [].
  - rewrite classify_snoc. destruct (Str.contains k stderr) eqn:E.
    + right. exists k, c. rewrite in_app_iff. simpl. auto.
    + destruct IH as [[H0 Hn]|(k' & c' & Hin & Hc & Hr)].
      * left. split; [exact H0|]. intros k' c'. rewrite in_app_iff.
        intros [H|[H|[]]]; [eauto|]. inversion H; subst. exact E.
      * right. exists k', c'. rewrite in_app_iff. auto.
Qed.

(** C4: what [_wrap_exception] raises when the command exits non-zero.  A
    single class is raised whatever [stderr] holds.  Otherwise the defaults
    are merged with the caller's mapping, whose values win on its keys; the
    exception raised is the class of a key of the merged mapping that
    occurs in [stderr], and the process error itself when none occurs. *)
Theorem wrap_exception_classifies (A : Type) exc returncode stderr :
  NoDup (map fst (overrides exc)) ->
  let merged := dict_or _DEFAULT_BASH_EXCEPTIONS (overrides exc) in
  exists e,
    @_wrap_exception A exc (Raise (CalledProcessError returncode stderr))
    = Raise e
    /\ match exc with
       | ExcClass cls => e = Raised cls stderr
       | _ =>
           ((exists key cls,
               e = Raised cls stderr /\ dict_get merged key = Some cls
               /\ Str.contains key stderr = true)
            \/ (e = CalledProcessError returncode stderr
                /\ forall key cls, dict_get merged key = Some cls ->
                                   Str.contains key stderr = false))
       end
    /\ (forall key cls, dict_get (overrides exc) key = Some cls ->
                        dict_get merged key = Some cls)
    /\ (forall key, dict_get (overrides exc) key = None ->
                    dict_get merged key = dict_get _DEFAULT_BASH_EXCEPTIONS key)
    /\ _DEFAULT_BASH_EXCEPTIONS
       = [ ("No such file or directory", FileNotFoundError);
           ("Permission denied", PermissionError);
           ("File exists", FileExistsError) ].
Proof.
  intros Hn merged.
  assert (Hm : NoDup (map fst merged)).
  { apply dict_or_nodup. repeat constructor; simpl; intuition discriminate. }
  assert (Hget : (forall key cls, dict_get (overrides exc) key = Some cls ->
                                  dict_get merged key = Some cls)
                 /\ (forall key, dict_get (overrides exc) key = None ->
                       dict_get merged key
                       = dict_get _DEFAULT_BASH_EXCEPTIONS key)).
  { split; intros key; [intros cls|]; intros H; unfold merged;
      rewrite (dict_get_or _ _ key Hn), H; reflexivity. }
  assert (Hloop :
    (exists key cls,
        classify merged stderr (CalledProcessError returncode stderr)
        = Raised cls stderr
        /\ dict_get merged key = Some cls /\ Str.contains key stderr = true)
    \/ (classify merged stderr (CalledProcessError returncode stderr)
        = CalledProcessError returncode stderr
        /\ forall key cls, dict_get merged key = Some cls ->
                           Str.contains key stderr = false)).
  { destruct (classify_spec merged stderr (CalledProcessError returncode stderr))
      as [[H0 Hno]|(k & c & Hin & Hc & Hr)].
    - right. split; [exact H0|]. intros key cls Hg.
      exact (Hno _ _ (dict_get_some _ _ _ Hg)).
    - left. exists k, c. repeat split; auto. apply dict_get_in; assumption. }
  destruct exc as [|cls|d]; cbn [_wrap_exception overrides] in *.
  - eexists. split; [reflexivity|]. split; [exact Hloop|].
    split; [apply Hget|split; [apply Hget|reflexivity]].
  - eexists. split; [reflexivity|]. split; [reflexivity|].
    split; [apply Hget|split; [apply Hget|reflexivity]].
  - eexists. split; [reflexivity|]. split; [exact Hloop|].
    split; [apply Hget|split; [apply Hget|reflexivity]].
Qed.

(** The two examples of the specification: the default pattern, and a
    caller's pattern. *)
Lemma wrap_exception_classifies_witness :
  @_wrap_exception unit ExcNone
    (Raise (CalledProcessError 1 "No such file or directory"))
  = Raise (Raised FileNotFoundError "No such file or directory")
  /\ @_wrap_exception unit (ExcDict [("Custom msg", UserError "FooError")])
       (Raise (CalledProcessError 1 "Custom msg"))
     = Raise (Raised (UserError "FooError") "Custom msg")
  /\ exists e,
       @_wrap_exception unit (ExcDict [("Custom msg", UserError "FooError")])
         (Raise (CalledProcessError 1 "Custom msg"))
       = Raise e.
Proof.
  split; [reflexivity|]. split; [reflexivity|].
  destruct (wrap_exception_classifies unit
              (ExcDict [("Custom msg", UserError "FooError")]) 1 "Custom msg")
    as (e & He & _).
  - repeat constructor. simpl. tauto.
  - exists e. exact He.
Defined.

(** ** Commands sent to the host *)

(** C8: on a remote path [stat] decodes what the command printed: the
    fields between white space, the first read in base 16 as the mode and
    the nine others in base 10 as inode, device, link count, user, group,
    size and the three times, in this order; the sample output of the
    specification gives mode [0o100644]. *)
Theorem stat_remote_decodes check_output os_stat more :
  (forall self follow_symlinks,
      is_remote (_host self) = true ->
      stat check_output os_stat more self follow_symlinks
      = (out <- run check_output (_host self)
                  (stat_cmd self follow_symlinks) ExcNone None ;;
         stat_decode more out))
  /\ (forall out mode_hex others mode ino dev nlink uid gid size atime mtime ctime,
         Str.split_ws out = mode_hex :: others ->
         PyInt.int_base 16 mode_hex = Ok mode ->
         mapM PyInt.int others
         = Ok [ino; dev; nlink; uid; gid; size; atime; mtime; ctime] ->
         stat_decode more out
         = Ok (mk_stat mode ino dev nlink uid gid size atime mtime ctime []))
  /\ stat_decode more
       "81a4 100 10 1 1000 1000 4096 1690000000 1690000001 1690000002"
     = Ok (mk_stat 33188 100 10 1 1000 1000 4096
             1690000000 1690000001 1690000002 [])
  /\ (33188 = 1 * 8 ^ 5 + 0 * 8 ^ 4 + 0 * 8 ^ 3 + 6 * 8 ^ 2 + 4 * 8 + 4)%Z.
Proof.
  split; [|split; [|split]].
  - intros self follow Hr. unfold stat. rewrite Hr. reflexivity.
  - intros out mode_hex others mode ino dev nlink uid gid size atime mtime ctime
           Hs Hm Ho.
    unfold stat_decode. rewrite Hs, Hm. cbn [bind]. rewrite Ho. reflexivity.
  - reflexivity.
  - reflexivity.
Qed.

Lemma stat_remote_decodes_witness :
  stat_decode 0
    "81a4 100 10 1 1000 1000 4096 1690000000 1690000001 1690000002"
  = Ok (mk_stat 33188 100 10 1 1000 1000 4096
          1690000000 1690000001 1690000002 []).
Proof.
  apply (proj1 (proj2 (stat_remote_decodes
                         (fun _ _ => Ok "") (fun _ _ => Raise TimeoutExpired) 0)))
    with (mode_hex := "81a4")
         (others := ["100"; "10"; "1"; "1000"; "1000"; "4096"; "1690000000";
                     "1690000001"; "1690000002"]);
    reflexivity.
Defined.

(** C10: on a remote path [exists] runs [[[ -f <path> ]] || echo no] and
    answers whether the output differs from [no]; so when the process layer
    returns what the shell prints for that command, a directory is reported
    as absent and a regular file as present; on a local path the answer is
    that of the file system. *)
Theorem exists_remote_is_file_test check_output os_exists self :
  exists_cmd self = "[[ -f " ++ PurePath.to_str (_path self) ++ " ]] || echo no"
  /\ (is_remote (_host self) = true ->
      exists_ check_output os_exists self
      = (out <- run check_output (_host self) (exists_cmd self) ExcNone None ;;
         Ok (negb (String.eqb out "no"))))
  /\ (forall hostname user port k,
         _host self = Remote hostname user port ->
         check_output
           (ssh_command (exists_cmd self) (user ++ "@" ++ hostname) port)
           (Some 5%Z)
         = Ok (test_f_or_echo_no k) ->
         exists_ check_output os_exists self
         = Ok (match k with Some RegularFile => true | _ => false end))
  /\ (is_remote (_host self) = false ->
      exists_ check_output os_exists self = os_exists (_path self)).
Proof.
  split; [reflexivity|]. split; [|split].
  - intros Hr. unfold exists_. rewrite Hr. reflexivity.
  - intros hostname user port k Hh Hc. unfold exists_. rewrite Hh.
    cbn [is_remote run]. unfold _ssh_run, _run.
    change (timeout_or_5 None) with (Some 5%Z). rewrite Hc.
    destruct k as [[| |]|]; reflexivity.
  - intros Hl. unfold exists_. rewrite Hl. reflexivity.
Qed.

Lemma exists_remote_is_file_test_witness :
  exists_ (fun _ _ => Ok (test_f_or_echo_no (Some Directory)))
    (fun _ => Ok true)
    (mkPath (Remote "h" "root" 22) (PurePath.mk "/" ["tmp"]))
  = Ok false
  /\ exists_ (fun _ _ => Ok (test_f_or_echo_no (Some Directory)))
       (fun _ => Ok true)
       (mkPath Local (PurePath.mk "/" ["tmp"]))
     = Ok true.
Proof.
  pose proof (exists_remote_is_file_test
                (fun _ _ => Ok (test_f_or_echo_no (Some Directory)))
                (fun _ => Ok true)) as H.
  split.
  - destruct (H (mkPath (Remote "h" "root" 22) (PurePath.mk "/" ["tmp"])))
      as (_ & _ & Hk & _).
    exact (Hk "h" "root" 22%Z (Some Directory) eq_refl eq_refl).
  - destruct (H (mkPath Local (PurePath.mk "/" ["tmp"]))) as (_ & _ & _ & Hl).
    exact (Hl eq_refl).
Defined.

(** ** Further properties *)

Lemma Forall_removelast {A : Type} (P : A -> Prop) l :
  Forall P l -> Forall P (removelast l).
Proof.
  induction 1 as [|x l Hx Hl IH]; simpl; [constructor|].
  destruct l; [constructor|]. constructor; assumption.
Qed.

Lemma parent_wf p : PurePath.wf p -> PurePath.wf (PurePath.parent p).
Proof.
  intros [Hr Hl]. unfold PurePath.parent.
  destruct (PurePath.tail p) eqn:E; [split; [exact Hr|rewrite E; exact Hl]|].
  split; [exact Hr|]. cbn [PurePath.tail]. apply Forall_removelast, Hl.
Qed.

Lemma parent_is_absolute p :
  PurePath.is_absolute (PurePath.parent p) = PurePath.is_absolute p.
Proof.
  unfold PurePath.parent, PurePath.is_absolute.
  destruct (PurePath.tail p); reflexivity.
Qed.

Lemma to_str_absolute p :
  PurePath.wf p -> PurePath.is_absolute p = true ->
  exists r, PurePath.to_str p = String "/" r.
Proof.
  destruct p as [r l]. intros [Hr _]. unfold PurePath.is_absolute, PurePath.to_str.
  cbn [PurePath.root PurePath.tail] in *.
  destruct Hr as [->|[->| ->]]; [discriminate| |]; intros _; eexists;
    reflexivity.
Qed.

Lemma of_str_home_relative rest :
  PurePath.is_absolute (PurePath.of_str (String "~" rest)) = false.
Proof. reflexivity. Qed.

(** The host printed by [str] parses back to the host, for every host
    [from_str] returns. *)
Theorem from_str_str_round_trip login addr h :
  from_str login addr = Ok h ->
  exists n u p,
    h = Remote n u p /\ from_str login (Remote_str login n u p) = Ok h.
Proof.
  intros H. pose proof (SshFacts.from_str_parses _ _ _ H) as Hp.
  destruct h as [|n u p]; [apply SshFacts.from_str_remote in H; discriminate|].
  exists n, u, p. split; [reflexivity|]. apply SshFacts.from_str_print, Hp.
Qed.

Lemma from_str_str_round_trip_witness :
  exists n u p,
    Remote "there" "root" 60 = Remote n u p
    /\ from_str "root" (Remote_str "root" n u p) = Ok (Remote "there" "root" 60).
Proof.
  apply (from_str_str_round_trip "root" "root@there:0_60"). reflexivity.
Defined.

(** The parent of an absolute path on a remote host, when the path was read
    from a string, is on the same host. *)
Theorem parent_keeps_host_absolute login s x :
  Path_init login (ArgStr s) = Ok x ->
  is_remote (_host x) = true -> PurePath.is_absolute (_path x) = true ->
  parent login x = Ok (mkPath (_host x) (PurePath.parent (_path x))).
Proof.
  intros Hx Hr Ha. cbn [Path_init] in Hx.
  destruct (split login s) as [[h p]|] eqn:Hs; [|discriminate].
  cbn [bind] in Hx. injection Hx as <-. cbn [_host _path] in *.
  destruct (SplitFacts.split_inv _ _ _ _ Hs)
    as [(-> & _)
       |[(addr & rest & _ & _ & Hf & -> & Hplain)
        |(addr & rest & _ & _ & _ & Hf & -> & _)]].
  - discriminate.
  - set (p := PurePath.of_str (String "/" rest)) in *.
    assert (Hw : PurePath.wf (PurePath.parent p))
      by apply parent_wf, PurePathFacts.of_str_wf.
    destruct (to_str_absolute _ Hw) as [r Hstr];
      [rewrite parent_is_absolute; exact Ha|].
    destruct h as [|n u q]; [discriminate|].
    unfold parent, _add_remote. cbn [Path_init prefix _host _path].
    assert (Hd : Str.mem "/" (Remote_str login n u q) = false)
      by (eapply SshFacts.Remote_str_plain; eauto).
    rewrite Hstr, StrFacts.app_assoc.
    change (":" ++ String "/" r) with (":/" ++ r).
    rewrite (SplitFacts.split_slash login _ r Hd).
    rewrite (SshFacts.from_str_print login n u q
               (SshFacts.from_str_parses _ _ _ Hf)).
    cbn [bind]. rewrite <- Hstr, (PurePathFacts.of_to_str _ Hw). reflexivity.
  - rewrite of_str_home_relative in Ha. discriminate.
Qed.

Lemma parent_keeps_host_absolute_witness :
  parent "root" (mkPath (Remote "foo" "a" 22) (PurePath.mk "/" ["bar"; "foo"]))
  = Ok (mkPath (Remote "foo" "a" 22) (PurePath.mk "/" ["bar"])).
Proof.
  apply (parent_keeps_host_absolute "root" "a@foo:/bar/foo"); reflexivity.
Defined.

(** Without the condition on the bare path the round trip of [str] fails:
    [./a:/b] is the local path [a:/b], whose string reads back as [/b] on
    the host [a]. *)
Theorem round_trip_needs_plain_bare_path :
  Path_init "root" (ArgStr "./a:/b")
  = Ok (mkPath Local (PurePath.mk "" ["a:"; "b"]))
  /\ Path_str "root" (mkPath Local (PurePath.mk "" ["a:"; "b"])) = "a:/b"
  /\ Path_init "root" (ArgStr "a:/b")
     = Ok (mkPath (Remote "a" "root" _DEFAULT_PORT) (PurePath.mk "/" ["b"])).
Proof. repeat split. Qed.

(** The loop of [_wrap_exception] does not stop at the first key found:
    when two default patterns occur in [stderr], the one declared later
    decides, wherever they stand in the text. *)
Theorem classify_last_match_wins :
  @_wrap_exception unit ExcNone
    (Raise (CalledProcessError 1 "Permission denied: File exists"))
  = Raise (Raised FileExistsError "Permission denied: File exists")
  /\ @_wrap_exception unit ExcNone
       (Raise (CalledProcessError 1 "File exists: Permission denied"))
     = Raise (Raised FileExistsError "File exists: Permission denied").
Proof. split; reflexivity. Qed.

(** [split] tries the mark [:/] first: a string whose first tilde follows a
    colon is rejected when a [:/] comes later, because the text before
    that [:/] is taken as the host descriptor. *)
Theorem split_raises_on_later_mark :
  colon_just_before_first "~" "a:~b/c:/d"
  /\ split "root" "a:~b/c:/d" = Raise (Builtin ValueError).
Proof.
  split; [|reflexivity]. exists "a", "b/c:/d". split; reflexivity.
Qed.

(** The assertions of [tests/test_path.py] on the embedding, with the login
    name [root]: creation, [remote]-free properties, [str], equality and
    the join. *)
Theorem test_path_cases :
  let P := fun s => Path_init "root" (ArgStr s) in
  let L := fun s => PurePath.of_str s in
  let there := Remote "there" "root" _DEFAULT_PORT in
  P "/foo/bar" = Ok (mkPath Local (L "/foo/bar"))
  /\ P "foo/bar" = Ok (mkPath Local (L "foo/bar"))
  /\ P "~/foo/bar" = Ok (mkPath Local (L "~/foo/bar"))
  /\ P "~me/foo/bar" = Ok (mkPath Local (L "~me/foo/bar"))
  /\ P "/x@foo/bar" = Ok (mkPath Local (L "/x@foo/bar"))
  /\ P "/fo:o/bar" = Ok (mkPath Local (L "/fo:o/bar"))
  /\ P "abc:def" = Ok (mkPath Local (L "abc:def"))
  /\ P "there:/foo" = Ok (mkPath there (L "/foo"))
  /\ P "me@there:/fo:o/bar"
     = Ok (mkPath (Remote "there" "me" _DEFAULT_PORT) (L "/fo:o/bar"))
  /\ P "me@there:60:~" = Ok (mkPath (Remote "there" "me" 60) (L "~"))
  /\ P "there:/60:x" = Ok (mkPath there (L "/60:x"))
  /\ P "name@a:~name/.config"
     = Ok (mkPath (Remote "a" "name" _DEFAULT_PORT) (L "~name/.config"))
  /\ P "1:2:/3" = Ok (mkPath (Remote "1" "root" 2) (L "/3"))
  /\ (x <- P "a@foo:/bar/foo" ;; parent "root" x) = P "a@foo:/bar"
  /\ (x <- P "a@foo:~bar/foo" ;; parent "root" x) = P "a@foo:~bar"
  /\ (x <- P "a@b:123:~/xyz" ;; Ok (Path_str "root" x)) = Ok "a@b:123:~/xyz"
  /\ (x <- P "abc/def.g" ;; y <- P "def/abc.g" ;; Ok (Path_eqb x y)) = Ok false
  /\ (x <- P "x:abc/def.g" ;; y <- P "x:abc/def.g" ;; Ok (Path_eqb x y)) = Ok true
  /\ (x <- P "x:abc/def.g" ;; y <- P "abc/def.g" ;; Ok (Path_eqb x y)) = Ok false
  /\ (x <- P "a:/b" ;; truediv "root" x (ArgStr "c")) = P "a:/b/c".
Proof. cbv zeta. repeat split. Qed.

(** * Further properties of the operations *)

(** ** What [_add_remote] keeps *)

(** A remote path read from a string, with an absolute bare path, has a host
    that parses back and prints without a slash. *)
Lemma remote_absolute_host login s x :
  Path_init login (ArgStr s) = Ok x ->
  is_remote (_host x) = true -> is_absolute x = true ->
  exists n u q,
    _host x = Remote n u q /\ host_parses login (Remote n u q)
    /\ Str.mem "/" (Remote_str login n u q) = false.
Proof.
  intros Hx Hr Ha. cbn [Path_init] in Hx.
  destruct (split login s) as [[h p]|] eqn:Hs; [|discriminate].
  cbn [bind] in Hx. injection Hx as <-. unfold is_absolute in Ha.
  cbn [_host _path] in *.
  destruct (SplitFacts.split_inv _ _ _ _ Hs)
    as [(-> & _)
       |[(addr & rest & _ & _ & Hf & -> & Hplain)
        |(addr & rest & _ & _ & _ & Hf & -> & _)]].
  - discriminate.
  - destruct h as [|n u q]; [discriminate|]. exists n, u, q.
    split; [reflexivity|]. split; [exact (SshFacts.from_str_parses _ _ _ Hf)|].
    eapply SshFacts.Remote_str_plain; eauto.
  - rewrite of_str_home_relative in Ha. discriminate.
Qed.

Lemma add_remote_rooted login n u q any r :
  host_parses login (Remote n u q) ->
  Str.mem "/" (Remote_str login n u q) = false ->
  _add_remote login (mkPath (Remote n u q) any) (String "/" r)
  = Ok (mkPath (Remote n u q) (PurePath.of_str (String "/" r))).
Proof.
  intros Hp Hd. unfold _add_remote. cbn [Path_init prefix _host].
  rewrite StrFacts.app_assoc. change (":" ++ String "/" r) with (":/" ++ r).
  rewrite (SplitFacts.split_slash login _ r Hd).
  rewrite (SshFacts.from_str_print login n u q Hp). reflexivity.
Qed.

Lemma add_remote_keeps login s x :
  Path_init login (ArgStr s) = Ok x ->
  is_remote (_host x) = true -> is_absolute x = true ->
  (forall r,
      _add_remote login x (String "/" r)
      = Ok (mkPath (_host x) (PurePath.of_str (String "/" r))))
  /\ (forall p,
         PurePath.wf p -> PurePath.is_absolute p = true ->
         _add_remote login x (PurePath.to_str p) = Ok (mkPath (_host x) p)).
Proof.
  intros Hx Hr Ha.
  destruct (remote_absolute_host _ _ _ Hx Hr Ha) as (n & u & q & Hh & Hp & Hd).
  destruct x as [h p0]. cbn [_host] in *. subst h.
  assert (H1 : forall r,
             _add_remote login (mkPath (Remote n u q) p0) (String "/" r)
             = Ok (mkPath (Remote n u q) (PurePath.of_str (String "/" r))))
    by (intros r; apply add_remote_rooted; assumption).
  split; [exact H1|]. intros p Hw Hab.
  destruct (to_str_absolute p Hw Hab) as [r Hstr].
  rewrite Hstr, H1, <- Hstr, (PurePathFacts.of_to_str p Hw). reflexivity.
Qed.

(** On a remote path read from a string, with an absolute bare path,
    [_add_remote] of any text that starts with a slash gives the path of
    that text on the same host; so every operation whose new bare path is
    absolute ([parent], [with_name], [with_stem], [with_suffix], the join)
    keeps the host. *)
Theorem add_remote_absolute login s x :
  Path_init login (ArgStr s) = Ok x ->
  is_remote (_host x) = true -> is_absolute x = true ->
  (forall r,
      _add_remote login x (String "/" r)
      = Ok (mkPath (_host x) (PurePath.of_str (String "/" r))))
  /\ (forall p,
         PurePath.wf p -> PurePath.is_absolute p = true ->
         _add_remote login x (PurePath.to_str p) = Ok (mkPath (_host x) p)).
Proof. exact (add_remote_keeps login s x). Qed.

Lemma add_remote_absolute_witness :
  (forall r,
      _add_remote "root"
        (mkPath (Remote "foo" "a" 22) (PurePath.mk "/" ["bar"])) (String "/" r)
      = Ok (mkPath (Remote "foo" "a" 22) (PurePath.of_str (String "/" r))))
  /\ (forall p,
         PurePath.wf p -> PurePath.is_absolute p = true ->
         _add_remote "root"
           (mkPath (Remote "foo" "a" 22) (PurePath.mk "/" ["bar"]))
           (PurePath.to_str p)
         = Ok (mkPath (Remote "foo" "a" 22) p)).
Proof.
  apply (add_remote_absolute "root" "a@foo:/bar"); reflexivity.
Defined.

Lemma add_remote_local_keeps login x p :
  _host x = Local -> PurePath.wf p ->
  Str.contains ":/" (PurePath.to_str p) = false ->
  Str.contains ":~" (PurePath.to_str p) = false ->
  _add_remote login x (PurePath.to_str p) = Ok (mkPath Local p).
Proof.
  intros Hh Hw H1 H2. unfold _add_remote. rewrite Hh.
  cbn [Path_init prefix]. change ("" ++ ?t) with t.
  rewrite SplitFacts.split_local
    by (apply SplitFacts.colon_first_absent; assumption).
  cbn [bind]. rewrite (PurePathFacts.of_to_str p Hw). reflexivity.
Qed.

(** On a local path [_add_remote] gives the local path it is handed, when
    the text of that path shows neither [:/] nor [:~]. *)
Theorem add_remote_local login x p :
  _host x = Local -> PurePath.wf p ->
  Str.contains ":/" (PurePath.to_str p) = false ->
  Str.contains ":~" (PurePath.to_str p) = false ->
  _add_remote login x (PurePath.to_str p) = Ok (mkPath Local p).
Proof. exact (add_remote_local_keeps login x p). Qed.

Lemma add_remote_local_witness :
  _add_remote "root" (mkPath Local (PurePath.mk "" ["a"; "b"]))
    (PurePath.to_str (PurePath.mk "" ["a"]))
  = Ok (mkPath Local (PurePath.mk "" ["a"])).
Proof.
  apply add_remote_local; try reflexivity.
  split; [left; reflexivity|]. repeat constructor.
Defined.

Lemma truediv_wf p q :
  PurePath.wf p -> PurePath.wf q -> PurePath.wf (PurePath.truediv p q).
Proof.
  intros [Hrp Hlp] [Hrq Hlq]. unfold PurePath.truediv.
  destruct (PurePath.is_absolute q); [split; assumption|].
  split; [exact Hrp|]. cbn [PurePath.tail]. apply Forall_app. auto.
Qed.

Lemma truediv_absolute p q :
  PurePath.is_absolute p = true ->
  PurePath.is_absolute (PurePath.truediv p q) = true.
Proof.
  intros H. unfold PurePath.truediv.
  destruct (PurePath.is_absolute q) eqn:E; [exact E|exact H].
Qed.

Lemma Path_init_wf login s x :
  Path_init login (ArgStr s) = Ok x -> PurePath.wf (_path x).
Proof.
  cbn [Path_init]. unfold split.
  destruct (colon_first s ":/" "/") as [[|]|]; cbn [bind]; try discriminate.
  - destruct (split2 ":/" s) as [[a r]|]; cbn [bind]; [|discriminate].
    destruct (from_str login a); cbn [bind]; [|discriminate].
    intros H; injection H as <-. apply PurePathFacts.of_str_wf.
  - destruct (colon_first s ":~" "~") as [[|]|]; cbn [bind]; try discriminate.
    + destruct (split2 ":~" s) as [[a r]|]; cbn [bind]; [|discriminate].
      destruct (from_str login a); cbn [bind]; [|discriminate].
      intros H; injection H as <-. apply PurePathFacts.of_str_wf.
    + intros H; injection H as <-. apply PurePathFacts.of_str_wf.
Qed.

(** Joining a string to an absolute remote path read from a string keeps
    the host of the left operand: the string is parsed as a path, its bare
    path is joined, and the host it names, if any, is dropped without a
    check. *)
Theorem truediv_str_keeps_left_host login s x k y :
  Path_init login (ArgStr s) = Ok x ->
  is_remote (_host x) = true -> is_absolute x = true ->
  Path_init login (ArgStr k) = Ok y ->
  truediv login x (ArgStr k)
  = Ok (mkPath (_host x) (PurePath.truediv (_path x) (_path y))).
Proof.
  intros Hx Hr Ha Hy. unfold truediv. cbn [bind]. rewrite Hy. cbn [bind].
  apply (add_remote_keeps login s x Hx Hr Ha).
  - apply truediv_wf; eapply Path_init_wf; eauto.
  - apply truediv_absolute. exact Ha.
Qed.

Lemma truediv_str_keeps_left_host_witness :
  truediv "root" (mkPath (Remote "a" "root" 22) (PurePath.mk "/" ["b"]))
    (ArgStr "c:/d")
  = Ok (mkPath (Remote "a" "root" 22) (PurePath.mk "/" ["d"])).
Proof.
  apply (truediv_str_keeps_left_host "root" "a:/b"
           (mkPath (Remote "a" "root" 22) (PurePath.mk "/" ["b"])) "c:/d"
           (mkPath (Remote "c" "root" 22) (PurePath.mk "/" ["d"])));
    reflexivity.
Defined.

(** ** What [from_str] and [split] accept and raise *)

Lemma count_zero c s : Str.count (String c "") s = O <-> Str.mem c s = false.
Proof.
  unfold Str.count. split.
  - apply StrFacts.count_fuel_zero. lia.
  - intros H. apply StrFacts.count_fuel_none, StrFacts.partition_char_none, H.
Qed.

Lemma from_str_raises login addr e :
  from_str login addr = Raise e ->
  e = Builtin ValueError \/ e = Builtin AssertionError.
Proof.
  unfold from_str, PyInt.int, PyInt.int_base. intros H.
  repeat (cbn [bind] in H;
          match type of H with
          | context [if ?b then _ else _] => destruct b
          | context [match Str.split ?c ?a with _ => _ end] =>
              destruct (Str.split c a) as [|? [|? [|? ?]]]
          | context [match PyInt.parse ?k ?a with _ => _ end] =>
              destruct (PyInt.parse k a)
          end);
    cbn [bind] in H; try discriminate; injection H as <-; auto.
Qed.

Lemma at_part_ok login hp q :
  (Str.count "@" hp <= 1)%nat ->
  exists n u,
    ('(user, host) <-
       (if Str.contains "@" hp then
          if (Str.count "@" hp =? 1)%nat then
            match Str.split "@" hp with
            | [user; host] => Ok (user, host)
            | _ => Raise (Builtin ValueError)
            end
          else Raise (Builtin AssertionError)
        else Ok (login, hp)) ;;
     Ok (Remote host user q)) = Ok (Remote n u q).
Proof.
  intros Hc. rewrite StrFacts.contains_char.
  destruct (Str.mem "@" hp) eqn:Em; [|cbn [bind]; eauto].
  assert (Hone : Str.count "@" hp = 1%nat).
  { destruct (Str.count "@" hp) as [|[|k]] eqn:E; [|reflexivity|lia].
    apply count_zero in E. congruence. }
  rewrite Hone. cbn [Nat.eqb].
  destruct (StrFacts.count_one _ _ Hone) as (a & b & _ & _ & _ & ->).
  cbn [bind]. eauto.
Qed.

(** [from_str] returns exactly on the descriptors with at most one colon,
    a port that [int] reads and at most one [@] before it; it raises
    [AssertionError] on two colons or more, and nothing but that and
    [ValueError]. *)
Theorem from_str_accepts login addr :
  ((exists h, from_str login addr = Ok h) <-> descriptor_ok addr)
  /\ ((2 <= Str.count ":" addr)%nat ->
      from_str login addr = Raise (Builtin AssertionError))
  /\ (forall e, from_str login addr = Raise e ->
                e = Builtin ValueError \/ e = Builtin AssertionError).
Proof.
  split; [|split; [|apply from_str_raises]].
  - split.
    + intros [h H].
      destruct h as [|n u p]; [apply SshFacts.from_str_remote in H; discriminate|].
      destruct (SshFacts.from_str_inv _ _ _ _ _ H) as (hp & Hport & Huser).
      exists hp. split; [|split].
      * destruct Hport as [(_ & -> & _)|(q & -> & _ & Hq & Hi)]; [auto|].
        right. exists q, p. auto.
      * destruct Hport as [(Hm & -> & _)|(q & _ & Hm & _)]; exact Hm.
      * destruct Huser as [(Hm & _)|(-> & Hu & Hn)].
        -- apply count_zero in Hm. lia.
        -- destruct (StrFacts.count_one_app "@" u n Hu Hn) as [Hc _].
           change ("@" ++ n) with (String "@" n). lia.
    + intros (hp & Hshape & Hcolon & Hat). unfold from_str.
      rewrite StrFacts.contains_char.
      destruct Hshape as [->|(q & z & -> & Hq & Hi)].
      * rewrite Hcolon. cbn [bind].
        destruct (at_part_ok login hp _DEFAULT_PORT Hat) as (n & u & ->). eauto.
      * change (":" ++ q) with (String ":" q).
        rewrite StrFacts.mem_app, StrFacts.mem_cons, Ascii.eqb_refl, orb_true_r.
        destruct (StrFacts.count_one_app ":" hp q Hcolon Hq) as [-> ->].
        cbn [Nat.eqb]. rewrite Hi. cbn [bind].
        destruct (at_part_ok login hp z Hat) as (n & u & ->). eauto.
  - intros H2. unfold from_str. rewrite StrFacts.contains_char.
    destruct (Str.mem ":" addr) eqn:Em.
    + destruct (Str.count ":" addr) as [|[|k]] eqn:E; [lia|lia|reflexivity].
    + apply count_zero in Em. lia.
Qed.

Lemma from_str_accepts_witness :
  from_str "root" "a:1:2" = Raise (Builtin AssertionError)
  /\ exists h, from_str "root" "me@there:60" = Ok h.
Proof.
  split.
  - apply (from_str_accepts "root" "a:1:2"). vm_compute. lia.
  - apply (from_str_accepts "root" "me@there:60").
    exists "me@there". split; [right; exists "60", 60%Z; auto|].
    split; [reflexivity|]. vm_compute. lia.
Defined.

(** The host [from_str] returns has a name free of [:] and [@], and a user
    that is the login name or is free of both. *)
Theorem from_str_fields_plain login addr n u p :
  from_str login addr = Ok (Remote n u p) ->
  Str.mem ":" n = false /\ Str.mem "@" n = false
  /\ (u = login \/ (Str.mem ":" u = false /\ Str.mem "@" u = false))
  /\ (Str.mem ":" addr = false -> p = _DEFAULT_PORT)
  /\ (Str.mem "@" addr = false -> u = login).
Proof.
  intros H. pose proof (SshFacts.from_str_parses _ _ _ H) as (Hn & Ha & Hu).
  split; [exact Hn|]. split; [exact Ha|]. split; [exact Hu|].
  destruct (SshFacts.from_str_inv _ _ _ _ _ H) as (hp & Hport & Huser).
  split.
  - intros Hc. destruct Hport as [(_ & _ & ->)|(q & -> & _)]; [reflexivity|].
    rewrite StrFacts.mem_app in Hc. change (":" ++ q) with (String ":" q) in Hc.
    rewrite StrFacts.mem_cons, Ascii.eqb_refl, orb_true_r in Hc. discriminate.
  - intros Hc. destruct Huser as [(_ & _ & ->)|(-> & _)]; [reflexivity|].
    exfalso.
    assert (Hin : Str.mem "@" (u ++ "@" ++ n) = true).
    { change ("@" ++ n) with (String "@" n).
      rewrite StrFacts.mem_app, StrFacts.mem_cons, Ascii.eqb_refl.
      apply orb_true_r. }
    destruct Hport as [(_ & E & _)|(q & -> & _)].
    + rewrite <- E, Hin in Hc. discriminate.
    + rewrite StrFacts.mem_app, Hin in Hc. discriminate.
Qed.

Lemma from_str_fields_plain_witness :
  Str.mem ":" "there" = false /\ Str.mem "@" "there" = false
  /\ ("root" = "root"
      \/ (Str.mem ":" "root" = false /\ Str.mem "@" "root" = false))
  /\ (Str.mem ":" "there" = false -> 22%Z = _DEFAULT_PORT)
  /\ (Str.mem "@" "there" = false -> "root" = "root").
Proof.
  apply (from_str_fields_plain "root" "there" "there" "root" 22). reflexivity.
Defined.

(** No remote path is relative: the bare path [split] returns with a remote
    host prints with a leading slash or a leading tilde, and it is absolute
    exactly in the first case. *)
Theorem split_remote_anchored login s h p :
  split login s = Ok (h, p) -> is_remote h = true ->
  exists c r,
    (c = "/" \/ c = "~")%char /\ PurePath.to_str p = String c r
    /\ (PurePath.is_absolute p = true <-> c = "/"%char).
Proof.
  intros Hs Hr.
  destruct (SplitFacts.split_inv _ _ _ _ Hs)
    as [(-> & _)|[(addr & rest & _ & _ & _ & -> & _)
                 |(addr & rest & _ & _ & _ & _ & -> & _)]].
  - discriminate.
  - destruct (PurePathFacts.to_str_rooted rest) as [r Hstr].
    exists "/"%char, r. split; [auto|]. split; [exact Hstr|].
    split; [reflexivity|]. intros _.
    unfold PurePath.of_str, PurePath.splitroot. cbn [Str.startswith].
    rewrite Ascii.eqb_refl. destruct (_ =? 2)%nat; reflexivity.
  - destruct (PurePathFacts.to_str_home rest) as [r Hstr].
    exists "~"%char, r. split; [auto|]. split; [exact Hstr|].
    rewrite of_str_home_relative. split; discriminate.
Qed.

Lemma split_remote_anchored_witness :
  exists c r,
    (c = "/" \/ c = "~")%char
    /\ PurePath.to_str (PurePath.mk "" ["~name"; ".config"]) = String c r
    /\ (PurePath.is_absolute (PurePath.mk "" ["~name"; ".config"]) = true
        <-> c = "/"%char).
Proof.
  apply (split_remote_anchored "root" "name@a:~name/.config"
           (Remote "a" "name" 22)); reflexivity.
Defined.

Lemma contains_pair_mem c1 c2 s :
  Str.contains (String c1 (String c2 "")) s = true ->
  Str.mem c1 s = true /\ Str.mem c2 s = true.
Proof.
  induction s as [|x s IH]; [discriminate|].
  rewrite SplitFacts.contains_pair_cons, !StrFacts.mem_cons.
  intros H. apply orb_true_iff in H as [H|H].
  - apply andb_true_iff in H as [-> H]. split; [reflexivity|].
    destruct s as [|y s]; [discriminate|]. cbn [Str.startswith] in H.
    rewrite StrFacts.mem_cons.
    destruct (Ascii.eqb c2 y); [apply orb_true_r|discriminate].
  - destruct (IH H) as [-> ->]. rewrite !orb_true_r. auto.
Qed.

Lemma colon_first_returns s c :
  exists b, colon_first s (String ":" (String c "")) (String c "") = Ok b.
Proof.
  unfold colon_first, Str.index.
  destruct (Str.contains (String ":" (String c "")) s) eqn:E; [|eauto].
  destruct (contains_pair_mem _ _ _ E) as [H1 H2].
  destruct (StrFacts.find_char_mem _ _ H1) as [i ->].
  destruct (StrFacts.find_char_mem _ _ H2) as [j ->]. cbn [bind]. eauto.
Qed.

(** [split] raises only what [from_str] raises on the text before the mark,
    a [ValueError] or an [AssertionError]; on a string that holds neither
    [:/] nor [:~] it returns the local host and the whole string as bare
    path. *)
Theorem split_raises_from_str login s :
  (forall e,
      split login s = Raise e ->
      (e = Builtin ValueError \/ e = Builtin AssertionError)
      /\ exists addr c rest,
           (c = "/" \/ c = "~")%char /\ s = addr ++ ":" ++ String c rest
           /\ from_str login addr = Raise e)
  /\ (Str.contains ":/" s = false -> Str.contains ":~" s = false ->
      split login s = Ok (Local, PurePath.of_str s)).
Proof.
  split.
  - intros e. unfold split, split2, Str.split_max1.
    assert (Hbranch : forall mark c addr rest,
               (c = "/" \/ c = "~")%char ->
               Str.partition mark s = Some (addr, rest) ->
               mark = String ":" (String c "") ->
               ('(host, path) <-
                  ('(address, path) <- Ok (addr, rest) ;;
                   let path := String c "" ++ path in
                   host <- from_str login address ;;
                   Ok (host, path)) ;;
                Ok (host, PurePath.of_str path)) = Raise e ->
               (e = Builtin ValueError \/ e = Builtin AssertionError)
               /\ exists addr c rest,
                    (c = "/" \/ c = "~")%char
                    /\ s = addr ++ ":" ++ String c rest
                    /\ from_str login addr = Raise e).
    { intros mark c addr rest Hc Hp -> H. cbn [bind] in H. cbv zeta in H.
      destruct (from_str login addr) as [h|e'] eqn:Hf; [discriminate|].
      cbn [bind] in H. injection H as ->.
      split; [exact (from_str_raises _ _ _ Hf)|].
      exists addr, c, rest. split; [exact Hc|].
      split; [exact (StrFacts.partition_sound _ _ _ _ Hp)|exact Hf]. }
    destruct (colon_first_returns s "/") as [b1 E1]. rewrite E1. cbn [bind].
    destruct b1.
    + destruct (SplitFacts.colon_first_inv _ _ _ E1) as [Hc _].
      apply StrFacts.contains_partition in Hc as (addr & rest & Hp).
      rewrite Hp. apply (Hbranch ":/" "/"%char addr rest); auto.
    + destruct (colon_first_returns s "~") as [b2 E2]. rewrite E2. cbn [bind].
      destruct b2; [|discriminate].
      destruct (SplitFacts.colon_first_inv _ _ _ E2) as [Hc _].
      apply StrFacts.contains_partition in Hc as (addr & rest & Hp).
      rewrite Hp. apply (Hbranch ":~" "~"%char addr rest); auto.
  - intros H1 H2. apply SplitFacts.split_local;
      apply SplitFacts.colon_first_absent; assumption.
Qed.

Lemma split_raises_from_str_witness :
  (Builtin ValueError = Builtin ValueError
   \/ Builtin ValueError = Builtin AssertionError)
  /\ exists addr c rest,
       (c = "/" \/ c = "~")%char /\ "a:b:/c" = addr ++ ":" ++ String c rest
       /\ from_str "root" addr = Raise (Builtin ValueError).
Proof.
  apply (split_raises_from_str "root" "a:b:/c"). reflexivity.
Defined.

(** The mark [:/] is looked for first, anywhere in the string: when a colon
    stands just before a tilde and a [:/] comes later, the text up to that
    [:/] is taken as the host descriptor and [split] raises.  So no remote
    home path with a [:/] in it can be read. *)
Theorem split_home_then_colon_slash login a b c :
  Str.mem ":" a = false -> Str.mem "/" a = false ->
  exists e, split login (a ++ ":~" ++ b ++ ":/" ++ c) = Raise e.
Proof.
  intros Hca Hsa. set (s := a ++ ":~" ++ b ++ ":/" ++ c).
  assert (E1 : colon_first s ":/" "/" = Ok true).
  { unfold colon_first, Str.index.
    assert (Hc : Str.contains ":/" s = true).
    { replace s with ((a ++ ":~" ++ b) ++ ":/" ++ c)
        by (unfold s; rewrite !StrFacts.app_assoc; reflexivity).
      apply StrFacts.contains_app. }
    rewrite Hc.
    destruct (StrFacts.find_lt_app ":" "/" a (String "~" (b ++ ":/" ++ c)))
      as (i & j & Hi & Hj & Hlt); [discriminate|exact Hsa| |].
    - rewrite StrFacts.mem_cons, !StrFacts.mem_app.
      change (Str.mem "/" ":/") with true. rewrite !orb_true_r. reflexivity.
    - change (a ++ String ":" (String "~" (b ++ ":/" ++ c))) with s in Hi, Hj.
      rewrite Hi, Hj. cbn [bind]. apply Nat.ltb_lt in Hlt. rewrite Hlt.
      reflexivity. }
  destruct (split login s) as [[h p]|e] eqn:Hs; [exfalso|eauto].
  destruct (SplitFacts.split_inv _ _ _ _ Hs)
    as [(_ & _ & N1 & _)
       |[(addr & rest & Hcut & _ & Hf & _)
        |(addr & rest & _ & N1 & _)]];
    [congruence| |congruence].
  change (addr ++ ":/" ++ rest) with (addr ++ String ":" (String "/" rest))
    in Hcut.
  change s with (a ++ String ":" (String "~" (b ++ ":/" ++ c))) in Hcut.
  destruct (StrFacts.cut_first ":" a _ addr _ Hca Hcut)
    as [[_ Ht]|(x & Hx & Ht)]; [discriminate|].
  destruct x as [|y x]; [discriminate|]. simpl in Ht. injection Ht as <- _.
  destruct h as [|n u q]; [apply SshFacts.from_str_remote in Hf; discriminate|].
  destruct (SshFacts.from_str_inv _ _ _ _ _ Hf) as (hp & Hport & _).
  destruct Hport as [(Hm & _)|(port_ & Hq & Hhp & _ & Hi)].
  - rewrite Hx, StrFacts.mem_app, StrFacts.mem_cons, Ascii.eqb_refl,
      orb_true_r in Hm. discriminate.
  - rewrite Hx in Hq. change (":" ++ port_) with (String ":" port_) in Hq.
    destruct (StrFacts.cut_first ":" a _ hp port_ Hca Hq)
      as [[_ ->]|(z & Hz & _)].
    + pose proof (PyIntFacts.int_plain _ _ "~" Hi eq_refl) as Hn.
      rewrite StrFacts.mem_cons, Ascii.eqb_refl in Hn. discriminate.
    + rewrite Hz, StrFacts.mem_app, StrFacts.mem_cons, Ascii.eqb_refl,
        orb_true_r in Hhp. discriminate.
Qed.

Lemma split_home_then_colon_slash_witness :
  exists e, split "root" ("me@h" ++ ":~" ++ "/notes/a" ++ ":/" ++ "b") = Raise e.
Proof.
  apply (split_home_then_colon_slash "root" "me@h" "/notes/a" "b");
    reflexivity.
Defined.

(** ** Which error a failed command becomes *)

Lemma classify_none d stderr e0 :
  (forall k c, In (k, c) d -> Str.contains k stderr = false) ->
  classify d stderr e0 = e0.
Proof.
  revert e0. induction d as [|[k c] d IH]; intros e0 H; [reflexivity|].
  unfold classify in *. cbn [fold_left fst snd].
  rewrite (H k c) by (left; reflexivity). apply IH.
  intros k' c' Hin. apply (H k' c'). right. exact Hin.
Qed.

Lemma classify_last l1 k c l2 stderr e0 :
  Str.contains k stderr = true ->
  (forall k' c', In (k', c') l2 -> Str.contains k' stderr = false) ->
  classify (l1 ++ (k, c) :: l2)%list stderr e0 = Raised c stderr.
Proof.
  intros Hk Hl2.
  change (l1 ++ (k, c) :: l2)%list with (l1 ++ [(k, c)] ++ l2)%list.
  rewrite List.app_assoc. unfold classify. rewrite fold_left_app.
  fold (classify (l1 ++ [(k, c)])%list stderr e0). rewrite classify_snoc, Hk.
  apply classify_none, Hl2.
Qed.

Lemma wrap_exception_last_match_aux (A : Type) returncode stderr :
  (forall exc l1 k c l2,
      match exc with ExcClass _ => False | _ => True end ->
      dict_or _DEFAULT_BASH_EXCEPTIONS (overrides exc)
      = (l1 ++ (k, c) :: l2)%list ->
      Str.contains k stderr = true ->
      (forall k' c', In (k', c') l2 -> Str.contains k' stderr = false) ->
      @_wrap_exception A exc (Raise (CalledProcessError returncode stderr))
      = Raise (Raised c stderr))
  /\ @_wrap_exception A ExcNone (Raise (CalledProcessError returncode stderr))
     = Raise
         (if Str.contains "File exists" stderr
          then Raised FileExistsError stderr
          else if Str.contains "Permission denied" stderr
          then Raised PermissionError stderr
          else if Str.contains "No such file or directory" stderr
          then Raised FileNotFoundError stderr
          else CalledProcessError returncode stderr).
Proof.
  split.
  - intros exc l1 k c l2 Hexc Hm Hk Hl2.
    destruct exc as [|cls|d]; [|contradiction|];
      cbn [_wrap_exception overrides] in *; rewrite Hm;
      rewrite (classify_last l1 k c l2 stderr _ Hk Hl2); reflexivity.
  - cbn [_wrap_exception]. unfold classify, dict_or, _DEFAULT_BASH_EXCEPTIONS.
    cbn [fold_left fst snd dict_set].
    destruct (Str.contains "File exists" stderr),
      (Str.contains "Permission denied" stderr),
      (Str.contains "No such file or directory" stderr); reflexivity.
Qed.

(** The loop of [_wrap_exception] has no [break]: the class raised is that
    of the last key of the merged mapping that occurs in [stderr].  With
    the defaults alone, [File exists] so wins over [Permission denied],
    which wins over [No such file or directory], wherever the patterns
    stand in the text. *)
Theorem wrap_exception_last_match (A : Type) returncode stderr :
  (forall exc l1 k c l2,
      match exc with ExcClass _ => False | _ => True end ->
      dict_or _DEFAULT_BASH_EXCEPTIONS (overrides exc)
      = (l1 ++ (k, c) :: l2)%list ->
      Str.contains k stderr = true ->
      (forall k' c', In (k', c') l2 -> Str.contains k' stderr = false) ->
      @_wrap_exception A exc (Raise (CalledProcessError returncode stderr))
      = Raise (Raised c stderr))
  /\ @_wrap_exception A ExcNone (Raise (CalledProcessError returncode stderr))
     = Raise
         (if Str.contains "File exists" stderr
          then Raised FileExistsError stderr
          else if Str.contains "Permission denied" stderr
          then Raised PermissionError stderr
          else if Str.contains "No such file or directory" stderr
          then Raised FileNotFoundError stderr
          else CalledProcessError returncode stderr).
Proof. exact (wrap_exception_last_match_aux A returncode stderr). Qed.

Lemma wrap_exception_last_match_witness :
  @_wrap_exception unit (ExcDict [("Custom msg", UserError "FooError")])
    (Raise (CalledProcessError 1 "Custom msg: File exists"))
  = Raise (Raised (UserError "FooError") "Custom msg: File exists").
Proof.
  apply (proj1 (wrap_exception_last_match unit 1 "Custom msg: File exists")
           (ExcDict [("Custom msg", UserError "FooError")])
           _DEFAULT_BASH_EXCEPTIONS "Custom msg" (UserError "FooError") []).
  - exact I.
  - reflexivity.
  - reflexivity.
  - intros k' c' [].
Defined.

(** [copy_to], [move_to] and a [rename] that involves a remote host run
    [rsync] on the local host, and a failure whose [stderr] holds
    [Read-only file system] is a [PermissionError], whatever other pattern
    it holds; without it the defaults decide. *)
Theorem rsync_failure_classes login check_output os_replace
    self destination contents_only overwrite returncode stderr :
  let table :=
    if Str.contains "Read-only file system" stderr
    then Raised PermissionError stderr
    else if Str.contains "File exists" stderr
    then Raised FileExistsError stderr
    else if Str.contains "Permission denied" stderr
    then Raised PermissionError stderr
    else if Str.contains "No such file or directory" stderr
    then Raised FileNotFoundError stderr
    else CalledProcessError returncode stderr in
  (check_output (copy_to_cmd login self destination contents_only) None
   = Raise (CalledProcessError returncode stderr) ->
   copy_to login check_output self destination contents_only = Raise table)
  /\ (check_output (move_to_cmd login self destination contents_only overwrite)
        None
      = Raise (CalledProcessError returncode stderr) ->
      move_to login check_output self destination contents_only overwrite
      = Raise table)
  /\ (is_remote (_host self) || is_remote (_host destination) = true ->
      check_output (move_to_cmd login self destination false true) None
      = Raise (CalledProcessError returncode stderr) ->
      rename login check_output os_replace self (ArgPath destination)
      = Raise table).
Proof.
  intros table.
  assert (Hw : @_wrap_exception string rsync_exc
                 (Raise (CalledProcessError returncode stderr)) = Raise table).
  { cbn [_wrap_exception rsync_exc]. unfold classify, dict_or.
    unfold _DEFAULT_BASH_EXCEPTIONS.
    cbn [fold_left fst snd dict_set String.eqb Ascii.eqb Bool.eqb].
    unfold table.
    destruct (Str.contains "Read-only file system" stderr),
      (Str.contains "File exists" stderr),
      (Str.contains "Permission denied" stderr),
      (Str.contains "No such file or directory" stderr); reflexivity. }
  split; [|split].
  - intros H. unfold copy_to, run, _run. rewrite H. cbn [bind]. rewrite Hw.
    reflexivity.
  - intros H. unfold move_to, run, _run. rewrite H. cbn [bind]. rewrite Hw.
    reflexivity.
  - intros Hr H. unfold rename, replace. cbn [Path_init bind _host _path].
    destruct self as [hs ps], destination as [hd pd]. cbn [_host _path] in *.
    rewrite Hr. unfold move_to, run, _run. rewrite H. cbn [bind]. rewrite Hw.
    reflexivity.
Qed.

Lemma rsync_failure_classes_witness :
  copy_to "root"
    (fun _ _ =>
       Raise (CalledProcessError 23
                "rsync: mkdir failed: Read-only file system; File exists"))
    (mkPath Local (PurePath.mk "/" ["a"]))
    (mkPath (Remote "h" "root" 22) (PurePath.mk "/" ["b"])) false
  = Raise (Raised PermissionError
             "rsync: mkdir failed: Read-only file system; File exists").
Proof.
  exact (proj1 (rsync_failure_classes "root"
           (fun _ _ =>
              Raise (CalledProcessError 23
                       "rsync: mkdir failed: Read-only file system; File exists"))
           (fun _ _ => Ok tt)
           (mkPath Local (PurePath.mk "/" ["a"]))
           (mkPath (Remote "h" "root" 22) (PurePath.mk "/" ["b"]))
           false true 23
           "rsync: mkdir failed: Read-only file system; File exists") eq_refl).
Defined.

(** ** What [run] returns *)

Lemma lstrip_head f s c r :
  Str.lstrip_by f s = String c r -> f c = false.
Proof.
  induction s as [|x s IH]; [discriminate|]. cbn [Str.lstrip_by].
  destruct (f x) eqn:E; [exact IH|]. intros H. injection H as <- _. exact E.
Qed.

Lemma rstrip_head f s c r :
  Str.rstrip_by f s = String c r -> exists r', s = String c r'.
Proof.
  destruct s as [|x s]; [discriminate|]. cbn [Str.rstrip_by].
  destruct (Str.rstrip_by f s); [destruct (f x); [discriminate|]|];
    intros H; injection H as <- _; eauto.
Qed.

Lemma app_last_inv (r : string) c x t :
  String x t = r ++ String c "" ->
  (t = "" /\ r = "" /\ x = c) \/ exists r', r = String x r' /\ t = r' ++ String c "".
Proof.
  destruct r as [|y r]; simpl; intros H; injection H as -> ->; eauto.
Qed.

Lemma rstrip_last f s r c :
  Str.rstrip_by f s = r ++ String c "" -> f c = false.
Proof.
  revert r. induction s as [|x s IH]; intros r.
  - destruct r; discriminate.
  - cbn [Str.rstrip_by]. destruct (Str.rstrip_by f s) as [|y t] eqn:E.
    + destruct (f x) eqn:Ex; [destruct r; discriminate|].
      intros H. destruct (app_last_inv _ _ _ _ H) as [(_ & _ & <-)|(r' & _ & Ht)];
        [exact Ex|destruct r'; discriminate].
    + intros H.
      destruct (app_last_inv _ _ _ _ H) as [(Ht & _)|(r' & _ & Ht)];
        [discriminate|]. exact (IH r' Ht).
Qed.

Lemma strip_stripped s : stripped (Str.strip s).
Proof.
  unfold stripped, Str.strip, Str.strip_by. split.
  - intros c r H. destruct (rstrip_head _ _ _ _ H) as [r' Hl].
    exact (lstrip_head _ _ _ _ Hl).
  - intros r c H. exact (rstrip_last _ _ _ _ H).
Qed.

Lemma wrap_exception_ok {A : Type} exc (body : result A) a :
  _wrap_exception exc body = Ok a -> body = Ok a.
Proof.
  destruct body as [b|[| | |]]; cbn [_wrap_exception]; try discriminate;
    [auto|]. destruct exc; discriminate.
Qed.

Lemma run_ok_stripped check_output h cmd exc timeout out :
  run check_output h cmd exc timeout = Ok out -> stripped out.
Proof.
  unfold run, _ssh_run, _run. intros H.
  destruct h as [|n u p]; apply wrap_exception_ok in H;
    match type of H with
    | bind ?x _ = _ => destruct x as [raw|]; [|discriminate]
    end; cbn [bind] in H; injection H as <-; apply strip_stripped.
Qed.

(** What [run] returns never starts or ends with white space; so
    [read_text] on a remote path does not give back a trailing newline or
    leading blanks of the file.  And an exception of the process layer that
    is not a [CalledProcessError], a timeout for one, is raised unchanged
    whatever [exc] is. *)
Theorem run_returns_stripped check_output os_read_text h cmd exc timeout :
  (forall out, run check_output h cmd exc timeout = Ok out -> stripped out)
  /\ (forall self out,
         is_remote (_host self) = true ->
         read_text check_output os_read_text self = Ok out -> stripped out)
  /\ (forall e,
         (forall returncode stderr, e <> CalledProcessError returncode stderr) ->
         match h with
         | Local => check_output cmd timeout
         | Remote n u p =>
             check_output (ssh_command cmd (u ++ "@" ++ n) p)
               (timeout_or_5 timeout)
         end = Raise e ->
         run check_output h cmd exc timeout = Raise e).
Proof.
  split; [|split].
  - intros out. apply run_ok_stripped.
  - intros self out Hr. unfold read_text. rewrite Hr. apply run_ok_stripped.
  - intros e Hne H. unfold run, _ssh_run, _run.
    destruct h as [|n u p]; rewrite H; cbn [bind];
      destruct e; try reflexivity; exfalso; eapply Hne; reflexivity.
Qed.

Lemma run_returns_stripped_witness :
  stripped "line" /\
  run (fun _ _ => Raise TimeoutExpired) (Remote "h" "root" 22) "cat /x"
    (ExcClass FileNotFoundError) None
  = Raise TimeoutExpired.
Proof.
  pose proof (run_returns_stripped
                (fun _ _ => Ok (" line" ++ newline)) (fun _ => Ok "")
                Local "cat /x" ExcNone None) as (H1 & _).
  split; [exact (H1 "line" eq_refl)|].
  apply (run_returns_stripped (fun _ _ => Raise TimeoutExpired)
           (fun _ => Ok "") (Remote "h" "root" 22) "cat /x"
           (ExcClass FileNotFoundError) None).
  - discriminate.
  - reflexivity.
Defined.

(** On a remote path read from a string, with an absolute bare path,
    [resolve] returns the path the host printed, on the same host, when
    what the host printed starts with a slash. *)
Theorem resolve_keeps_host login check_output os_resolve s x out r :
  Path_init login (ArgStr s) = Ok x ->
  is_remote (_host x) = true -> is_absolute x = true ->
  run check_output (_host x) (resolve_cmd x) ExcNone None = Ok out ->
  out = String "/" r ->
  resolve login check_output os_resolve x
  = Ok (mkPath (_host x) (PurePath.of_str out)).
Proof.
  intros Hx Hr Ha Hrun ->. unfold resolve. rewrite Hr, Hrun. cbn [bind].
  apply (add_remote_keeps login s x Hx Hr Ha).
Qed.

Lemma resolve_keeps_host_witness :
  resolve "root" (fun _ _ => Ok ("/srv/data" ++ newline)) (fun p => Ok p)
    (mkPath (Remote "h" "me" 22) (PurePath.mk "/" ["data"]))
  = Ok (mkPath (Remote "h" "me" 22) (PurePath.mk "/" ["srv"; "data"])).
Proof.
  apply (resolve_keeps_host "root" (fun _ _ => Ok ("/srv/data" ++ newline))
           (fun p => Ok p) "me@h:/data"
           (mkPath (Remote "h" "me" 22) (PurePath.mk "/" ["data"]))
           "/srv/data" "srv/data");
    reflexivity.
Defined.

(** ** Relative paths: order and round trip *)

Lemma skipn_app_length {A : Type} (l r : list A) :
  skipn (List.length l) (l ++ r)%list = r.
Proof. induction l; simpl; auto. Qed.

Lemma contains_suffix sub a b :
  Str.contains sub b = true -> Str.contains sub (a ++ b) = true.
Proof.
  unfold Str.contains. induction a as [|x a IH]; intros H; [exact H|].
  simpl append. cbn [Str.find].
  destruct (Str.startswith sub (String x (a ++ b))); [reflexivity|].
  specialize (IH H). destruct (Str.find sub (a ++ b)); [reflexivity|discriminate].
Qed.

Lemma join_app sep l y r :
  Str.join sep (l ++ y :: r)%list
  = (match l with [] => "" | _ => Str.join sep l ++ sep end)
    ++ Str.join sep (y :: r).
Proof.
  induction l as [|x l IH]; [reflexivity|].
  destruct l as [|x' l].
  - simpl app. rewrite StrFacts.join_cons2. rewrite StrFacts.app_assoc.
    reflexivity.
  - change ((x :: x' :: l) ++ y :: r)%list with (x :: (x' :: l) ++ y :: r)%list.
    change ((x' :: l) ++ y :: r)%list with (x' :: (l ++ y :: r))%list in *.
    rewrite StrFacts.join_cons2, IH, (StrFacts.join_cons2 sep x x' l).
    rewrite !StrFacts.app_assoc. reflexivity.
Qed.

Lemma eqb_app_cons a c r : String.eqb (a ++ String c r) "" = false.
Proof. destruct a; reflexivity. Qed.

(** The text of a relative tail ends the text of the whole path. *)
Lemma to_str_tail rt lo rest :
  Forall PurePath.seg_ok rest ->
  rest = [] \/
  exists a, PurePath.to_str (PurePath.mk rt (lo ++ rest))
            = a ++ PurePath.to_str (PurePath.mk "" rest).
Proof.
  intros Hs. destruct rest as [|y r]; [auto|]. right.
  inversion Hs as [|? ? Hy _]; subst.
  destruct (PurePathFacts.join_head y r Hy) as (c & t & Hj & _).
  unfold PurePath.to_str. cbn [PurePath.root PurePath.tail].
  rewrite join_app. change ("" ++ Str.join "/" (y :: r)) with (Str.join "/" (y :: r)).
  rewrite Hj. cbn [String.eqb]. rewrite <- StrFacts.app_assoc, eqb_app_cons.
  eauto.
Qed.

(** Between local paths whose text shows no [:/] and no [:~], the relative
    path that [relative_to] returns, joined to the base again, gives the
    path back. *)
Theorem relative_to_truediv_round_trip login self other :
  _host self = Local -> _host other = Local -> PurePath.wf (_path self) ->
  bare_prefix (_path other) (_path self) ->
  Str.contains ":/" (PurePath.to_str (_path self)) = false ->
  Str.contains ":~" (PurePath.to_str (_path self)) = false ->
  exists r,
    relative_to login self (ArgPath other) = Ok r /\ _host r = Local
    /\ truediv login other (ArgPath r) = Ok self.
Proof.
  destruct self as [hs [rt ls]], other as [ho [rq lo]].
  cbn [_host _path]. intros -> -> Hw [Hroot [rest Htail]] H1 H2.
  cbn [PurePath.root PurePath.tail] in Hroot, Htail. subst rt ls.
  assert (Hrest : Forall PurePath.seg_ok rest).
  { destruct Hw as [_ Hl]. cbn [PurePath.tail] in Hl.
    apply Forall_app in Hl. tauto. }
  set (rel := PurePath.mk "" rest).
  assert (Hwrel : PurePath.wf rel) by (split; [left; reflexivity|exact Hrest]).
  assert (Hmarks : forall sub, Str.contains sub "." = false ->
             Str.contains sub (PurePath.to_str (PurePath.mk rq (lo ++ rest)))
             = false ->
             Str.contains sub (PurePath.to_str rel) = false).
  { intros sub Hdot Hsub. unfold rel.
    destruct (to_str_tail rq lo rest Hrest) as [->|[a Ha]]; [exact Hdot|].
    destruct (Str.contains sub (PurePath.to_str (PurePath.mk "" rest))) eqn:E;
      [|reflexivity].
    rewrite Ha, (contains_suffix sub a _ E) in Hsub. discriminate. }
  exists (mkPath Local rel). split; [|split; [reflexivity|]].
  - unfold relative_to. cbn [Path_init bind _host _path Host_eqb negb].
    unfold PurePath.relative_to, PurePath.is_relative_to.
    cbn [PurePath.root PurePath.tail]. rewrite String.eqb_refl.
    rewrite (proj2 (is_prefix_spec lo (lo ++ rest)))
      by (exists rest; reflexivity).
    cbn [andb bind]. rewrite skipn_app_length.
    apply add_remote_local_keeps; auto.
  - unfold truediv. cbn [Path_init bind _host _path Host_eqb negb].
    unfold PurePath.truediv. cbn [PurePath.is_absolute PurePath.root rel].
    cbn [String.eqb negb PurePath.tail].
    apply add_remote_local_keeps; auto.
Qed.

Lemma relative_to_truediv_round_trip_witness :
  exists r,
    relative_to "root" (mkPath Local (PurePath.mk "/" ["a"; "b"; "c"]))
      (ArgPath (mkPath Local (PurePath.mk "/" ["a"])))
    = Ok r
    /\ _host r = Local
    /\ truediv "root" (mkPath Local (PurePath.mk "/" ["a"])) (ArgPath r)
       = Ok (mkPath Local (PurePath.mk "/" ["a"; "b"; "c"])).
Proof.
  apply (relative_to_truediv_round_trip "root"
           (mkPath Local (PurePath.mk "/" ["a"; "b"; "c"]))
           (mkPath Local (PurePath.mk "/" ["a"]))); try reflexivity.
  - split; [right; left; reflexivity|]. repeat constructor.
  - split; [reflexivity|]. exists ["b"; "c"]. reflexivity.
Defined.

Lemma is_relative_to_ok login x y b :
  is_relative_to login x (ArgPath y) = Ok b ->
  b = true -> _host x = _host y /\ bare_prefix (_path y) (_path x).
Proof.
  unfold is_relative_to. cbn [Path_init bind _host _path].
  destruct (Host_eqb (_host x) (_host y)) eqn:E; cbn [negb];
    intros H; injection H as <-; [|discriminate].
  intros Hr. apply Host_eqb_eq in E. apply is_relative_to_spec in Hr. auto.
Qed.

(** [is_relative_to] orders the paths: every path is relative to itself,
    the relation is transitive, and two paths relative to each other are
    the same path on the same host. *)
Theorem is_relative_to_order login x y z :
  is_relative_to login x (ArgPath x) = Ok true
  /\ (is_relative_to login x (ArgPath y) = Ok true ->
      is_relative_to login y (ArgPath z) = Ok true ->
      is_relative_to login x (ArgPath z) = Ok true)
  /\ (is_relative_to login x (ArgPath y) = Ok true ->
      is_relative_to login y (ArgPath x) = Ok true -> x = y).
Proof.
  assert (Hintro : forall a b,
             _host a = _host b -> bare_prefix (_path b) (_path a) ->
             is_relative_to login a (ArgPath b) = Ok true).
  { intros a b Hh Hp. unfold is_relative_to. cbn [Path_init bind _host _path].
    rewrite (proj2 (Host_eqb_eq _ _) Hh). cbn [negb].
    rewrite (proj2 (is_relative_to_spec _ _) Hp). reflexivity. }
  split; [|split].
  - apply Hintro; [reflexivity|]. split; [reflexivity|].
    exists []. rewrite List.app_nil_r. reflexivity.
  - intros Hxy Hyz.
    destruct (is_relative_to_ok _ _ _ _ Hxy eq_refl) as [Hh1 [Hr1 [r1 Ht1]]].
    destruct (is_relative_to_ok _ _ _ _ Hyz eq_refl) as [Hh2 [Hr2 [r2 Ht2]]].
    apply Hintro; [congruence|]. split; [congruence|].
    exists (r2 ++ r1)%list. rewrite Ht1, Ht2, List.app_assoc. reflexivity.
  - intros Hxy Hyx.
    destruct (is_relative_to_ok _ _ _ _ Hxy eq_refl) as [Hh1 [Hr1 [r1 Ht1]]].
    destruct (is_relative_to_ok _ _ _ _ Hyx eq_refl) as [_ [_ [r2 Ht2]]].
    destruct x as [hx [rx lx]], y as [hy [ry ly]].
    cbn [_host _path PurePath.root PurePath.tail] in *. subst hy ry.
    assert (r1 = []).
    { apply (f_equal (@List.length string)) in Ht1, Ht2.
      rewrite List.length_app in Ht1, Ht2. destruct r1; [reflexivity|].
      simpl in Ht1. lia. }
    subst r1. rewrite List.app_nil_r in Ht1. subst lx. reflexivity.
Qed.

Lemma is_relative_to_order_witness :
  is_relative_to "root"
    (mkPath Local (PurePath.mk "/" ["a"; "b"; "c"]))
    (ArgPath (mkPath Local (PurePath.mk "/" ["a"])))
  = Ok true.
Proof.
  exact (proj1 (proj2
    (is_relative_to_order "root"
       (mkPath Local (PurePath.mk "/" ["a"; "b"; "c"]))
       (mkPath Local (PurePath.mk "/" ["a"; "b"]))
       (mkPath Local (PurePath.mk "/" ["a"])))) eq_refl eq_refl).
Defined.

(** ** Remote operations: failures, [stat] and [glob] *)

(** A command that fails on a remote host makes [run], and with it [stat],
    [exists], [read_text] and [resolve], raise by the table of the
    defaults: a missing file is a [FileNotFoundError] unless [stderr] also
    holds [Permission denied] or [File exists]. *)
Theorem remote_failure_classes login check_output os_exists os_stat more
    os_read_text os_resolve self n u p returncode stderr :
  _host self = Remote n u p ->
  let table :=
    if Str.contains "File exists" stderr
    then Raised FileExistsError stderr
    else if Str.contains "Permission denied" stderr
    then Raised PermissionError stderr
    else if Str.contains "No such file or directory" stderr
    then Raised FileNotFoundError stderr
    else CalledProcessError returncode stderr in
  let fails := fun cmd =>
    check_output (ssh_command cmd (u ++ "@" ++ n) p) (Some 5%Z)
    = Raise (CalledProcessError returncode stderr) in
  (forall cmd, fails cmd ->
               run check_output (_host self) cmd ExcNone None = Raise table)
  /\ (forall follow_symlinks,
         fails (stat_cmd self follow_symlinks) ->
         stat check_output os_stat more self follow_symlinks = Raise table)
  /\ (fails (exists_cmd self) ->
      exists_ check_output os_exists self = Raise table)
  /\ (fails (read_text_cmd self) ->
      read_text check_output os_read_text self = Raise table)
  /\ (fails (resolve_cmd self) ->
      resolve login check_output os_resolve self = Raise table).
Proof.
  intros Hh table fails.
  assert (Hrun : forall cmd, fails cmd ->
             run check_output (_host self) cmd ExcNone None = Raise table).
  { intros cmd Hf. rewrite Hh. unfold run, _ssh_run, _run.
    change (timeout_or_5 None) with (Some 5%Z). unfold fails in Hf.
    rewrite Hf. cbn [bind]. apply (proj2 (wrap_exception_last_match_aux _ _ _)). }
  split; [exact Hrun|]. split; [|split; [|split]].
  - intros follow Hf. unfold stat. rewrite Hh at 1. cbn [is_remote].
    rewrite (Hrun _ Hf). reflexivity.
  - intros Hf. unfold exists_. rewrite Hh at 1. cbn [is_remote].
    rewrite (Hrun _ Hf). reflexivity.
  - intros Hf. unfold read_text. rewrite Hh at 1. cbn [is_remote].
    apply (Hrun _ Hf).
  - intros Hf. unfold resolve. rewrite Hh at 1. cbn [is_remote].
    rewrite (Hrun _ Hf). reflexivity.
Qed.

Lemma remote_failure_classes_witness :
  stat (fun _ _ =>
          Raise (CalledProcessError 1
                   "stat: cannot statx '/x': No such file or directory"))
    (fun _ _ => Raise TimeoutExpired) 0
    (mkPath (Remote "h" "me" 22) (PurePath.mk "/" ["x"])) true
  = Raise (Raised FileNotFoundError
             "stat: cannot statx '/x': No such file or directory").
Proof.
  exact (proj1 (proj2
    (remote_failure_classes "root"
       (fun _ _ =>
          Raise (CalledProcessError 1
                   "stat: cannot statx '/x': No such file or directory"))
       (fun _ => Ok true) (fun _ _ => Raise TimeoutExpired) 0
       (fun _ => Ok "") (fun p => Ok p)
       (mkPath (Remote "h" "me" 22) (PurePath.mk "/" ["x"]))
       "h" "me" 22 1 "stat: cannot statx '/x': No such file or directory"
       eq_refl)) true eq_refl).
Defined.

Lemma mapM_length {A B : Type} (f : A -> result B) l bs :
  mapM f l = Ok bs -> List.length bs = List.length l.
Proof.
  revert bs. induction l as [|a l IH]; intros bs; cbn [mapM].
  - intros H; injection H as <-. reflexivity.
  - destruct (f a); cbn [bind]; [|discriminate].
    destruct (mapM f l) as [bs'|]; cbn [bind]; [|discriminate].
    intros H; injection H as <-. simpl. f_equal. apply IH. reflexivity.
Qed.

Lemma mapM_raises l e :
  mapM PyInt.int l = Raise e -> e = Builtin ValueError.
Proof.
  induction l as [|a l IH]; cbn [mapM]; [discriminate|].
  unfold PyInt.int at 1, PyInt.int_base.
  destruct (PyInt.parse 10 a); cbn [bind]; [|intros H; injection H as <-; auto].
  destruct (mapM PyInt.int l); cbn [bind]; [discriminate|].
  intros H; injection H as <-. apply IH. reflexivity.
Qed.

(** What [stat] makes of the output of the command: it returns only on ten
    fields or more, at most as many as [os.stat_result] takes; output with
    no field raises [ValueError], and every failure is a [ValueError] (a
    field that is no number) or a [TypeError] (the wrong number of
    fields). *)
Theorem stat_decode_errors more out :
  (Str.split_ws out = [] -> stat_decode more out = Raise (Builtin ValueError))
  /\ (forall st,
         stat_decode more out = Ok st ->
         (10 <= List.length (Str.split_ws out) <= 10 + more)%nat
         /\ (10 + List.length (st_more st))%nat
            = List.length (Str.split_ws out)
         /\ exists mode_hex others,
              Str.split_ws out = mode_hex :: others
              /\ PyInt.int_base 16 mode_hex = Ok (st_mode st))
  /\ (forall e,
         stat_decode more out = Raise e ->
         e = Builtin ValueError \/ e = Builtin TypeError).
Proof.
  unfold stat_decode. split; [intros ->; reflexivity|].
  destruct (Str.split_ws out) as [|mode_hex others].
  { split; [discriminate|]. intros e H. injection H as <-. auto. }
  destruct (PyInt.int_base 16 mode_hex) as [mode|e0] eqn:E16; cbn [bind].
  2:{ split; [discriminate|]. intros e H. injection H as <-.
      unfold PyInt.int_base in E16.
      destruct (PyInt.parse 16 mode_hex); [discriminate|].
      injection E16 as <-. auto. }
  destruct (mapM PyInt.int others) as [rest|e'] eqn:Em; cbn [bind].
  2:{ split; [discriminate|]. intros e H. injection H as <-.
      left. exact (mapM_raises _ _ Em). }
  pose proof (mapM_length _ _ _ Em) as Hlen. unfold make_stat_result.
  destruct rest as [|ino [|dev [|nlink [|uid [|gid [|size [|atime
    [|mtime [|ctime extra]]]]]]]]];
    try (split; [discriminate|intros e H; injection H as <-; auto]).
  destruct (List.length extra <=? more)%nat eqn:El;
    [|split; [discriminate|intros e H; injection H as <-; auto]].
  apply Nat.leb_le in El. split; [|discriminate].
  intros st H. injection H as <-. cbn [st_more st_mode List.length] in *.
  rewrite <- Hlen. split; [lia|]. split; [lia|].
  exists mode_hex, others. split; [reflexivity|exact E16].
Qed.

Lemma stat_decode_errors_witness :
  (10 <= List.length (Str.split_ws "81a4 7 8 1 0 0 12 1 2 3") <= 10 + 0)%nat
  /\ (10 + List.length
            (st_more (mk_stat 33188 7 8 1 0 0 12 1 2 3 [])))%nat
     = List.length (Str.split_ws "81a4 7 8 1 0 0 12 1 2 3")
  /\ exists mode_hex others,
       Str.split_ws "81a4 7 8 1 0 0 12 1 2 3" = mode_hex :: others
       /\ PyInt.int_base 16 mode_hex
          = Ok (st_mode (mk_stat 33188 7 8 1 0 0 12 1 2 3 [])).
Proof.
  exact (proj1 (proj2 (stat_decode_errors 0 "81a4 7 8 1 0 0 12 1 2 3"))
           (mk_stat 33188 7 8 1 0 0 12 1 2 3 []) eq_refl).
Defined.


